(** * FssFMI: the point-to-point transport of [src/comm/server.cpp]

    A shallow embedding of [comm::Server] and of the byte-exact transfer
    primitives it is built on, together with the properties stated for them
    in the specification of the repository.

    Conventions.
    - [uint32_t] and [std::size_t] are [Z] with the wrap-around written out
      ([u32], [u64]); a byte is a [Byte.byte].
    - The operating system is a record [World]: the descriptor table (a
      [gmap]), the byte stream in each direction, a schedule that decides
      what every transfer system call does, and the log of the process.
    - A member function of [Server] is a function of the object [Server] and
      of the [World] that yields an [Outcome]: it returns, the process has
      exited, an exception leaves the call, or the call has written outside
      an object and the behaviour of the program is undefined.
    - [std::vector<uint32_t>] follows libstdc++ on an LP64 target: a vector
      of more than [max_size()] elements cannot be made (the constructor
      throws [std::length_error]), and an empty vector owns no storage
      ([data()] is null).  Memory exhaustion is outside the model: making a
      vector of at most [max_size()] elements succeeds. *)

From Stdlib Require Import ZArith NArith List Lia String Sorted.
From Stdlib.Strings Require Import Byte.
From stdpp Require Import base list gmap strings.

Import ListNotations.
Local Open Scope Z_scope.

(** ** Machine integers and their object representation *)

Module Wire.

Definition u32 (x : Z) : Z := x mod 2 ^ 32.
Definition u64 (x : Z) : Z := x mod 2 ^ 64.

Definition is_u32 (x : Z) : Prop := 0 <= x < 2 ^ 32.
Definition is_u64 (x : Z) : Prop := 0 <= x < 2 ^ 64.

(** The byte layout of the host.  The code applies no conversion
    ([reinterpret_cast<const char *>(&value)]), so the layout is a property
    of the machine it runs on. *)
Inductive ByteOrder : Type := LittleEndian | BigEndian.

(** Conversion to [unsigned char] and back. *)
Definition byte_of (x : Z) : byte :=
  match Byte.of_N (Z.to_N (x mod 256)) with
  | Some b => b
  | None => Byte.x00
  end.

Definition byte_val (b : byte) : Z := Z.of_N (Byte.to_N b).

(** The [n] low-order bytes of [x], least significant first. *)
Fixpoint le_bytes (n : nat) (x : Z) : list byte :=
  match n with
  | O => []
  | S n' => byte_of x :: le_bytes n' (x / 256)
  end.

Fixpoint le_value (bs : list byte) : Z :=
  match bs with
  | [] => 0
  | b :: bs' => byte_val b + 256 * le_value bs'
  end.

(** The [n] bytes at the address of an [n]-byte unsigned object holding [x]. *)
Definition object_bytes (o : ByteOrder) (n : nat) (x : Z) : list byte :=
  match o with
  | LittleEndian => le_bytes n x
  | BigEndian => rev (le_bytes n x)
  end.

(** The value of the unsigned object whose bytes are [bs]. *)
Definition object_value (o : ByteOrder) (bs : list byte) : Z :=
  match o with
  | LittleEndian => le_value bs
  | BigEndian => le_value (rev bs)
  end.

(** [vector.data()] viewed as [char *]: the elements back to back. *)
Fixpoint data_bytes (o : ByteOrder) (v : list Z) : list byte :=
  match v with
  | [] => []
  | x :: v' => object_bytes o 4 x ++ data_bytes o v'
  end.

(** The [n] elements of type [uint32_t] stored in the bytes [bs]. *)
Fixpoint data_values (o : ByteOrder) (n : nat) (bs : list byte) : list Z :=
  match n with
  | O => []
  | S n' => object_value o (take 4 bs) :: data_values o n' (drop 4 bs)
  end.

End Wire.

Import Wire.

(** ** The operating system and the process environment *)

Inductive FdKind : Type := Listening | Connected.

(** A log record.  The text of a trace message ends with a rendering of the
    value ([std::to_string], [utils::VectorToStr], [utils::ArrayToStr]); the
    record keeps the prefix and the values that are rendered. *)
Inductive LogEvent : Type :=
| Fatal (msg : string)
| Trace (msg : string) (values : list Z).

Record World : Type := mkWorld {
  byte_order : ByteOrder;
  (** descriptors that are open in the process *)
  fds : gmap Z FdKind;
  (** what the [n]-th transfer call may move: a positive number of bytes,
      [0] for a connection closed by the peer, a negative number for an
      error *)
  sched : nat -> Z;
  (** transfer calls ([send], [recv]) made so far *)
  syscalls : nat;
  (** bytes accepted by the stream towards the peer, oldest first *)
  tx : list byte;
  (** bytes the peer wrote before closing its end, not read yet *)
  rx : list byte;
  log : list LogEvent
}.

Definition EXIT_FAILURE : Z := 1.

Definition with_fds (w : World) (m : gmap Z FdKind) : World :=
  mkWorld (byte_order w) m (sched w) (syscalls w) (tx w) (rx w) (log w).

Definition with_log (w : World) (l : list LogEvent) : World :=
  mkWorld (byte_order w) (fds w) (sched w) (syscalls w) (tx w) (rx w) l.

(** One more transfer call has been made; [out] was accepted by the stream
    and [rest] is what is left to read. *)
Definition transferred (w : World) (out rest : list byte) : World :=
  mkWorld (byte_order w) (fds w) (sched w) (S (syscalls w)) (tx w ++ out) rest
          (log w).

(** [send(fd, buf, len, 0)] on a blocking stream socket: the result is the
    number of bytes taken from the front of [buf], between 1 and [len], or
    [-1]. *)
Definition sys_send (w : World) (fd : Z) (buf : list byte) : Z * World :=
  match fds w !! fd with
  | Some Connected =>
      let c := sched w (syscalls w) in
      if c <=? 0 then (-1, transferred w [] (rx w))
      else
        let out := take (Z.to_nat c) buf in
        (Z.of_nat (length out), transferred w out (rx w))
  | _ => (-1, transferred w [] (rx w))
  end.

(** [recv(fd, buf, len, 0)]: the result is the number of bytes stored at the
    front of [buf], between 1 and [len]; [0] when the peer has closed the
    connection; [-1] on an error.  The second component is the bytes stored. *)
Definition sys_recv (w : World) (fd : Z) (len : nat)
  : Z * list byte * World :=
  match fds w !! fd with
  | Some Connected =>
      let c := sched w (syscalls w) in
      if c <? 0 then (-1, [], transferred w [] (rx w))
      else
        let chunk := take (Nat.min (Z.to_nat c) len) (rx w) in
        (Z.of_nat (length chunk), chunk,
         transferred w [] (drop (length chunk) (rx w)))
  | _ => (-1, [], transferred w [] (rx w))
  end.

(** [close(fd)]: releases an open descriptor; on anything else it fails with
    [EBADF] and changes nothing. *)
Definition sys_close (w : World) (fd : Z) : Z * World :=
  match fds w !! fd with
  | Some _ => (0, with_fds w (delete fd (fds w)))
  | None => (-1, w)
  end.

(** Modelled from the spec: [utils::Logger] ([src/utils/logger.hpp] is not
    part of the sources at hand).  Fatal messages are always emitted, trace
    messages only when the debug flag is set. *)
Definition FatalLog (msg : string) (w : World) : World :=
  with_log w (log w ++ [Fatal msg]).

Definition TraceLog (msg : string) (values : list Z) (debug : bool) (w : World)
  : World :=
  if debug then with_log w (log w ++ [Trace msg values]) else w.

(** ** Byte-exact transfers ([comm::internal]) *)

Module internal.

(** Modelled from the spec: [internal::SendData] (section 4.1, [SendAll];
    its definition is not part of the sources at hand).  The call is
    repeated on the unsent suffix of the buffer until nothing is left or a
    call reports an error; a length of zero makes no call.  Every successful
    call takes at least one byte, so [length buf] rounds are enough. *)
Fixpoint SendLoop (fuel : nat) (w : World) (fd : Z) (rest : list byte)
  : bool * World :=
  match rest with
  | [] => (true, w)
  | _ :: _ =>
      match fuel with
      | O => (false, w)
      | S fuel' =>
          let '(n, w') := sys_send w fd rest in
          if n <=? 0 then (false, w')
          else SendLoop fuel' w' fd (drop (Z.to_nat n) rest)
      end
  end.

Definition SendData (w : World) (fd : Z) (buf : list byte) : bool * World :=
  SendLoop (length buf) w fd buf.

(** Modelled from the spec: [internal::RecvData] (section 4.1, [RecvAll]).
    The call is repeated for the unread suffix of the buffer until [want]
    bytes are in, or a call reports an error or a closed connection.  The
    second component is what was stored, in order. *)
Fixpoint RecvLoop (fuel : nat) (w : World) (fd : Z) (want : nat)
  : bool * list byte * World :=
  match want with
  | O => (true, [], w)
  | S _ =>
      match fuel with
      | O => (false, [], w)
      | S fuel' =>
          let '(n, chunk, w') := sys_recv w fd want in
          if n <=? 0 then (false, [], w')
          else
            let '(ok, more, w'') :=
              RecvLoop fuel' w' fd (want - length chunk)%nat in
            (ok, chunk ++ more, w'')
      end
  end.

(** [buf] is the content of the destination before the call; the result
    carries its content after it: the bytes received, then the part that no
    call reached. *)
Definition RecvData (w : World) (fd : Z) (buf : list byte)
  : bool * list byte * World :=
  let '(ok, got, w') := RecvLoop (length buf) w fd (length buf) in
  (ok, got ++ drop (length got) buf, w').

End internal.

(** ** The connection object ([comm::Server]) *)

(** The data members.  [server.hpp] is not part of the sources at hand:
    [total_bytes_sent_] has the type its accessor returns, [uint32_t]. *)
Record Server : Type := mkServer {
  port_ : Z;
  debug_ : bool;
  server_fd_ : Z;
  client_fd_ : Z;
  total_bytes_sent_ : Z
}.

Definition add_bytes_sent (s : Server) (n : Z) : Server :=
  mkServer (port_ s) (debug_ s) (server_fd_ s) (client_fd_ s)
           (u32 (total_bytes_sent_ s + n)).

Inductive Exception : Type := length_error.

(** A call of a member function returns a result, with the object and the
    environment as the call left them; or ends the process through
    [exit(status)]; or is left by an exception; or has stored bytes outside
    the object it was given, after which nothing is known. *)
Inductive Outcome (A : Type) : Type :=
| Returned (a : A) (s : Server) (w : World)
| Exited (status : Z) (w : World)
| Thrown (e : Exception) (s : Server) (w : World)
| Undefined.

Arguments Returned {A} a s w.
Arguments Exited {A} status w.
Arguments Thrown {A} e s w.
Arguments Undefined {A}.

(** [std::vector<uint32_t>] is a list; [max_size()] bounds its length
    ([PTRDIFF_MAX / sizeof(uint32_t)] on an LP64 target). *)
Definition max_size : Z := 2 ^ 61 - 1.

Definition is_vector (v : list Z) : Prop :=
  Forall is_u32 v /\ Z.of_nat (length v) <= max_size.

(** [std::array<uint32_t, 2>] and [std::array<uint32_t, 4>]. *)
Definition array2 : Type := Z * Z.
Definition array4 : Type := Z * Z * Z * Z.

Definition array2_elems (a : array2) : list Z :=
  let '(a0, a1) := a in [a0; a1].
Definition array4_elems (a : array4) : list Z :=
  let '(a0, a1, a2, a3) := a in [a0; a1; a2; a3].

Definition array2_of_elems (l : list Z) : array2 :=
  (nth 0 l 0, nth 1 l 0).
Definition array4_of_elems (l : list Z) : array4 :=
  (nth 0 l 0, nth 1 l 0, nth 2 l 0, nth 3 l 0).

Definition is_array2 (a : array2) : Prop := Forall is_u32 (array2_elems a).
Definition is_array4 (a : array4) : Prop := Forall is_u32 (array4_elems a).

Definition CloseSocket (s : Server) (w : World) : World :=
  let '(_, w1) := sys_close w (server_fd_ s) in
  let '(_, w2) := sys_close w1 (client_fd_ s) in
  w2.

(** [Server::~Server]. *)
Definition destroy (s : Server) (w : World) : World := CloseSocket s w.

(** The common failure branch: [FatalLog], [CloseSocket], [exit]. *)
Definition fatal {A : Type} (msg : string) (s : Server) (w : World)
  : Outcome A :=
  Exited EXIT_FAILURE (CloseSocket s (FatalLog msg w)).

Definition SendValue (value : Z) (s : Server) (w : World) : Outcome unit :=
  let '(is_sent, w1) :=
    internal.SendData w (client_fd_ s) (object_bytes (byte_order w) 4 value) in
  if negb is_sent then fatal "Failed to send uint32_t data" s w1
  else
    let s' := add_bytes_sent s 4 in
    Returned tt s' (TraceLog "Sent data: " [value] (debug_ s') w1).

Definition RecvValue (value : Z) (s : Server) (w : World) : Outcome Z :=
  let '(is_received, bytes, w1) :=
    internal.RecvData w (client_fd_ s) (object_bytes (byte_order w) 4 value) in
  if negb is_received then fatal "Failed to receive uint32_t data" s w1
  else
    let value' := object_value (byte_order w) bytes in
    Returned value' s (TraceLog "Received data: " [value'] (debug_ s) w1).

Definition SendVector (vector : list Z) (s : Server) (w : World)
  : Outcome unit :=
  let vector_size := u64 (Z.of_nat (length vector) * 4) in
  let '(is_sent1, w1) :=
    internal.SendData w (client_fd_ s)
                      (object_bytes (byte_order w) 8 vector_size) in
  let '(is_sent2, w2) :=
    internal.SendData w1 (client_fd_ s)
                      (take (Z.to_nat vector_size)
                            (data_bytes (byte_order w) vector)) in
  let is_sent := is_sent1 && is_sent2 in
  if negb is_sent then fatal "Failed to send vector data" s w2
  else
    let s' := add_bytes_sent s (8 + vector_size) in
    Returned tt s' (TraceLog "Sent vector: " vector (debug_ s') w2).

(** [vector.size()]: a vector never has more than [max_size()] elements. *)
Definition size_of_vector (vector : list Z) : Z :=
  Z.min (Z.of_nat (length vector)) max_size.

(** A transfer into a null pointer with a positive length: the one [recv]
    call stores nothing and reports an error, so [RecvData] answers
    [false]. *)
Definition recv_into_null (w : World) (fd : Z) : bool * list byte * World :=
  (false, [], transferred w [] (rx w)).

(** The bytes a transfer took from the stream and stored. *)
Definition stored (w w' : World) : Z :=
  Z.of_nat (length (rx w)) - Z.of_nat (length (rx w')).

(** [vector_size] is used as it stands after the first transfer, complete
    or not.  [r_vector] is made with [vector_size / 4] elements before any
    result is looked at: beyond [max_size()] the constructor throws.  The
    second transfer asks for [vector_size] bytes at [r_vector.data()], and
    [r_vector] owns [4 * (vector_size / 4)] of them: with a size that is not
    a multiple of 4, the pointer is null when the vector is empty, and
    otherwise every byte stored beyond the storage of [r_vector] is a write
    outside the object (the buffer below continues with the bytes behind
    the storage). *)
Definition RecvVector (vector : list Z) (s : Server) (w : World)
  : Outcome (list Z) :=
  let vector_size := u64 (size_of_vector vector * 4) in
  let '(is_received1, size_bytes, w1) :=
    internal.RecvData w (client_fd_ s)
                      (object_bytes (byte_order w) 8 vector_size) in
  let vector_size := object_value (byte_order w) size_bytes in
  if max_size <? vector_size / 4 then Thrown length_error s w1
  else
    let r_vector := repeat 0 (Z.to_nat (vector_size / 4)) in
    let '(is_received2, bytes, w2) :=
      if (vector_size / 4 =? 0) && (0 <? vector_size)
      then recv_into_null w1 (client_fd_ s)
      else
        internal.RecvData w1 (client_fd_ s)
                          (data_bytes (byte_order w) r_vector
                           ++ repeat Byte.x00
                                     (Z.to_nat (vector_size mod 4))) in
    if 4 * (vector_size / 4) <? stored w1 w2 then Undefined
    else
      let is_received := is_received1 && is_received2 in
      if negb is_received then fatal "Failed to receive vector data" s w2
      else
        let vector' := data_values (byte_order w) (length r_vector) bytes in
        Returned vector' s
                 (TraceLog "Received vector: " vector' (debug_ s) w2).

Definition SendArray2 (array : array2) (s : Server) (w : World)
  : Outcome unit :=
  let '(is_sent, w1) :=
    internal.SendData w (client_fd_ s)
                      (data_bytes (byte_order w) (array2_elems array)) in
  if negb is_sent then fatal "Failed to send vector data" s w1
  else
    let s' := add_bytes_sent s (2 * 4) in
    Returned tt s'
             (TraceLog "Sent array: " (array2_elems array) (debug_ s') w1).

Definition RecvArray2 (array : array2) (s : Server) (w : World)
  : Outcome array2 :=
  let '(is_received, bytes, w1) :=
    internal.RecvData w (client_fd_ s)
                      (data_bytes (byte_order w) (array2_elems array)) in
  if negb is_received then fatal "Failed to receive vector data" s w1
  else
    let array' := array2_of_elems (data_values (byte_order w) 2 bytes) in
    Returned array' s
             (TraceLog "Received array: " (array2_elems array') (debug_ s) w1).

Definition SendArray4 (array : array4) (s : Server) (w : World)
  : Outcome unit :=
  let '(is_sent, w1) :=
    internal.SendData w (client_fd_ s)
                      (data_bytes (byte_order w) (array4_elems array)) in
  if negb is_sent then fatal "Failed to send vector data" s w1
  else
    let s' := add_bytes_sent s (4 * 4) in
    Returned tt s'
             (TraceLog "Sent array: " (array4_elems array) (debug_ s') w1).

Definition RecvArray4 (array : array4) (s : Server) (w : World)
  : Outcome array4 :=
  let '(is_received, bytes, w1) :=
    internal.RecvData w (client_fd_ s)
                      (data_bytes (byte_order w) (array4_elems array)) in
  if negb is_received then fatal "Failed to receive vector data" s w1
  else
    let array' := array4_of_elems (data_values (byte_order w) 4 bytes) in
    Returned array' s
             (TraceLog "Received array: " (array4_elems array') (debug_ s) w1).

Definition GetPortNumber (s : Server) : Z := port_ s.

Definition GetTotalBytesSent (s : Server) : Z := total_bytes_sent_ s.

Definition ClearTotalBytesSent (s : Server) : Server :=
  mkServer (port_ s) (debug_ s) (server_fd_ s) (client_fd_ s) 0.

(** ** Calls and sequences of calls *)

(** The codec operations of the class, with their arguments. *)
Inductive Call : Type :=
| CallSendValue (value : Z)
| CallRecvValue (value : Z)
| CallSendVector (vector : list Z)
| CallRecvVector (vector : list Z)
| CallSendArray2 (array : array2)
| CallRecvArray2 (array : array2)
| CallSendArray4 (array : array4)
| CallRecvArray4 (array : array4).

(** What a call leaves in its reference argument. *)
Inductive Result : Type :=
| NoResult
| ValueResult (value : Z)
| VectorResult (vector : list Z)
| Array2Result (array : array2)
| Array4Result (array : array4).

Definition bind {A B : Type} (m : Outcome A)
  (f : A -> Server -> World -> Outcome B) : Outcome B :=
  match m with
  | Returned a s w => f a s w
  | Exited status w => Exited status w
  | Thrown e s w => Thrown e s w
  | Undefined => Undefined
  end.

Definition ret {A : Type} (a : A) : Server -> World -> Outcome A :=
  fun s w => Returned a s w.

Definition invoke (c : Call) (s : Server) (w : World) : Outcome Result :=
  match c with
  | CallSendValue value =>
      bind (SendValue value s w) (fun _ => ret NoResult)
  | CallRecvValue value =>
      bind (RecvValue value s w) (fun v => ret (ValueResult v))
  | CallSendVector vector =>
      bind (SendVector vector s w) (fun _ => ret NoResult)
  | CallRecvVector vector =>
      bind (RecvVector vector s w) (fun v => ret (VectorResult v))
  | CallSendArray2 array =>
      bind (SendArray2 array s w) (fun _ => ret NoResult)
  | CallRecvArray2 array =>
      bind (RecvArray2 array s w) (fun a => ret (Array2Result a))
  | CallSendArray4 array =>
      bind (SendArray4 array s w) (fun _ => ret NoResult)
  | CallRecvArray4 array =>
      bind (RecvArray4 array s w) (fun a => ret (Array4Result a))
  end.

Definition is_send (c : Call) : bool :=
  match c with
  | CallSendValue _ | CallSendVector _ | CallSendArray2 _ | CallSendArray4 _ =>
      true
  | _ => false
  end.


(** The number of bytes a send hands to the stream: the value the code adds
    to the counter. *)
Definition bytes_of (c : Call) : Z :=
  match c with
  | CallSendValue _ => 4
  | CallSendVector vector => 8 + u64 (Z.of_nat (length vector) * 4)
  | CallSendArray2 _ => 8
  | CallSendArray4 _ => 16
  | _ => 0
  end.

(** The counter after each call of [cs] when every call is a send that
    returns: a sum modulo [2 ^ 32]. *)
Fixpoint readings (cs : list Call) (total : Z) : list Z :=
  match cs with
  | [] => []
  | c :: cs' =>
      let total' := u32 (total + bytes_of c) in
      total' :: readings cs' total'
  end.

Fixpoint total_bytes (cs : list Call) : Z :=
  match cs with
  | [] => 0
  | c :: cs' => bytes_of c + total_bytes cs'
  end.

(** The calls [cs] one after the other; the result lists what
    [GetTotalBytesSent] returns after each of them. *)
Fixpoint run (cs : list Call) (s : Server) (w : World) : Outcome (list Z) :=
  match cs with
  | [] => Returned [] s w
  | c :: cs' =>
      bind (invoke c s w) (fun _ s1 w1 =>
      bind (run cs' s1 w1) (fun readings s2 w2 =>
      Returned (GetTotalBytesSent s1 :: readings) s2 w2))
  end.

(** The conjunction of the results of the byte transfers a call makes
    ([is_sent], [is_received] in the code).  [RecvVector] makes no second
    transfer when the constructor of [r_vector] throws. *)
Definition transfers_succeed (c : Call) (s : Server) (w : World) : bool :=
  let fd := client_fd_ s in
  let o := byte_order w in
  match c with
  | CallSendValue value => (internal.SendData w fd (object_bytes o 4 value)).1
  | CallRecvValue value =>
      (internal.RecvData w fd (object_bytes o 4 value)).1.1
  | CallSendVector vector =>
      let vector_size := u64 (Z.of_nat (length vector) * 4) in
      let r1 := internal.SendData w fd (object_bytes o 8 vector_size) in
      let r2 := internal.SendData r1.2 fd
                  (take (Z.to_nat vector_size) (data_bytes o vector)) in
      r1.1 && r2.1
  | CallRecvVector vector =>
      let vector_size := u64 (size_of_vector vector * 4) in
      let r1 := internal.RecvData w fd (object_bytes o 8 vector_size) in
      let vector_size := object_value o r1.1.2 in
      if max_size <? vector_size / 4 then r1.1.1
      else
        let r2 :=
          if (vector_size / 4 =? 0) && (0 <? vector_size)
          then recv_into_null r1.2 fd
          else
            internal.RecvData r1.2 fd
              (data_bytes o (repeat 0 (Z.to_nat (vector_size / 4)))
               ++ repeat Byte.x00 (Z.to_nat (vector_size mod 4))) in
        r1.1.1 && r2.1.1
  | CallSendArray2 array =>
      (internal.SendData w fd (data_bytes o (array2_elems array))).1
  | CallRecvArray2 array =>
      (internal.RecvData w fd (data_bytes o (array2_elems array))).1.1
  | CallSendArray4 array =>
      (internal.SendData w fd (data_bytes o (array4_elems array))).1
  | CallRecvArray4 array =>
      (internal.RecvData w fd (data_bytes o (array4_elems array))).1.1
  end.

(** The descriptor is connected and no transfer call is cut below [limit]
    bytes. *)
Definition unthrottled (w : World) (fd : Z) (limit : Z) : Prop :=
  fds w !! fd = Some Connected /\ forall n, limit <= sched w n.

(** ** A connected pair for concrete runs *)

Module Example.

(** Descriptor 3 listens, descriptor 4 is the accepted peer; every transfer
    call may move up to [chunk] bytes. *)
Definition world (o : ByteOrder) (chunk : Z) (incoming : list byte)
  : World :=
  mkWorld o (<[3 := Listening]> (<[4 := Connected]> ∅))
          (fun _ => chunk) 0 [] incoming [].

Definition server (debug : bool) : Server := mkServer 55555 debug 3 4 0.

(** A vector of [n] zeros. *)
Definition zeros (n : Z) : list Z := repeat 0 (Z.to_nat n).

(** A peer that closes the connection after the first transfer call. *)
Definition hangup (incoming : list byte) : World :=
  mkWorld LittleEndian (<[3 := Listening]> (<[4 := Connected]> ∅))
          (fun n => match n with O => 2 | _ => 0 end) 0 [] incoming [].

(** The first transfer call moves one byte, the second fails with an error
    (a signal, say), and the connection goes on: every later call may move
    up to eight bytes. *)
Definition interrupted (incoming : list byte) : World :=
  mkWorld LittleEndian (<[3 := Listening]> (<[4 := Connected]> ∅))
          (fun n => match n with O => 1 | S O => -1 | _ => 8 end)
          0 [] incoming [].

End Example.

(** ** Messages on the stream *)

(** The descriptor is connected and every transfer call moves at least one
    byte: the stream may cut a transfer anywhere, it does not fail. *)
Definition live (w : World) (fd : Z) : Prop :=
  fds w !! fd = Some Connected /\ forall n, 0 < sched w n.

(** The bytes a send hands to [SendData], in the order of the calls. *)
Definition wire_of (o : ByteOrder) (c : Call) : list byte :=
  match c with
  | CallSendValue value => object_bytes o 4 value
  | CallSendVector vector =>
      let vector_size := u64 (Z.of_nat (length vector) * 4) in
      object_bytes o 8 vector_size
      ++ take (Z.to_nat vector_size) (data_bytes o vector)
  | CallSendArray2 array => data_bytes o (array2_elems array)
  | CallSendArray4 array => data_bytes o (array4_elems array)
  | _ => []
  end.

(** The arguments of a send have the types the code gives them. *)
Definition well_typed (c : Call) : Prop :=
  match c with
  | CallSendValue value => is_u32 value
  | CallSendVector vector => is_vector vector
  | CallSendArray2 array => is_array2 array
  | CallSendArray4 array => is_array4 array
  | _ => True
  end.

(** What the matching receive leaves in its argument. *)
Definition payload_of (c : Call) : Result :=
  match c with
  | CallSendValue value => ValueResult value
  | CallSendVector vector => VectorResult vector
  | CallSendArray2 array => Array2Result array
  | CallSendArray4 array => Array4Result array
  | _ => NoResult
  end.

(** [recv] is the receive that goes with the send [send]. *)
Definition answers (send recv : Call) : Prop :=
  match send, recv with
  | CallSendValue _, CallRecvValue _ => True
  | CallSendVector _, CallRecvVector _ => True
  | CallSendArray2 _, CallRecvArray2 _ => True
  | CallSendArray4 _, CallRecvArray4 _ => True
  | _, _ => False
  end.

(** The calls [cs] one after the other, with the result of each. *)
Fixpoint collect (cs : list Call) (s : Server) (w : World)
  : Outcome (list Result) :=
  match cs with
  | [] => Returned [] s w
  | c :: cs' =>
      bind (invoke c s w) (fun r s1 w1 =>
      bind (collect cs' s1 w1) (fun rs s2 w2 =>
      Returned (r :: rs) s2 w2))
  end.

(** The bytes all sends of [cs] hand to [SendData]. *)
Fixpoint wire_of_all (o : ByteOrder) (cs : list Call) : list byte :=
  match cs with
  | [] => []
  | c :: cs' => wire_of o c ++ wire_of_all o cs'
  end.

(** The 32-bit value with its four bytes in the opposite order. *)
Definition bswap32 (x : Z) : Z :=
  (x mod 256) * 2 ^ 24 + (x / 2 ^ 8 mod 256) * 2 ^ 16
  + (x / 2 ^ 16 mod 256) * 2 ^ 8 + x / 2 ^ 24 mod 256.

(** The least number of bytes a receive takes from the stream before it
    returns; for a vector the count is in the first eight bytes. *)
Definition bytes_needed (c : Call) (w : World) : Z :=
  match c with
  | CallRecvValue _ => 4
  | CallRecvVector _ => 8 + object_value (byte_order w) (take 8 (rx w))
  | CallRecvArray2 _ => 8
  | CallRecvArray4 _ => 16
  | _ => 0
  end.

(** ** Sockets: what [Setup] and [Start] ask of the operating system *)

(** The process as [Setup] and [Start] see it: the environment of the
    transfers, whose descriptor table holds the listening and the connected
    sockets, and around it what creating and accepting connections needs. *)
Record Host : Type := mkHost {
  env : World;
  (** sockets made by [socket] that do not listen yet, each with the port
      [bind] gave it, if any *)
  embryos : gmap Z (option Z);
  (** the port of each socket the process made listen *)
  listening : gmap Z Z;
  (** open descriptors that are not sockets: files, terminals, pipes *)
  others : gset Z;
  (** ports held by other processes *)
  busy : gset Z;
  (** the limit on open descriptors: every descriptor is below it *)
  nofile : Z;
  (** peers that have connected and wait to be accepted *)
  pending : nat;
  stderr : list string;
  (** the ports the operating system tries, in this order, for a socket
      that asks for any port *)
  ephemeral : list Z
}.

Definition with_env (h : Host) (w : World) : Host :=
  mkHost w (embryos h) (listening h) (others h) (busy h) (nofile h)
         (pending h) (stderr h) (ephemeral h).

Definition with_embryos (h : Host) (m : gmap Z (option Z)) : Host :=
  mkHost (env h) m (listening h) (others h) (busy h) (nofile h) (pending h)
         (stderr h) (ephemeral h).

(** [perror(msg)]: a line on the standard error stream. *)
Definition perror (msg : string) (h : Host) : Host :=
  mkHost (env h) (embryos h) (listening h) (others h) (busy h) (nofile h)
         (pending h) (stderr h ++ [msg]) (ephemeral h).

Definition is_open (h : Host) (fd : Z) : bool :=
  bool_decide (fd ∈ others h)
  || match fds (env h) !! fd, embryos h !! fd with
     | None, None => false
     | _, _ => true
     end.

(** The first number from [fd] on that [open] rejects, looking at [fuel]
    numbers at most. *)
Fixpoint first_free (open : Z -> bool) (fuel : nat) (fd : Z) : Z :=
  match fuel with
  | O => fd
  | S fuel' => if open fd then first_free open fuel' (fd + 1) else fd
  end.

(** The descriptor a call that makes one returns: the lowest number that is
    not open.  Among the first [n + 1] numbers one is free when [n]
    descriptors are open. *)
Definition lowest_free (h : Host) : Z :=
  first_free (is_open h)
             (size (others h) + size (dom (fds (env h)))
              + size (dom (embryos h))) 0.

(** Is [port] held by another process, by a listening socket of this one or
    by a socket of this one that is bound and does not listen yet? *)
Definition port_taken (h : Host) (port : Z) : bool :=
  bool_decide (port ∈ busy h)
  || existsb (fun '(fd, p) =>
                (p =? port)
                && match fds (env h) !! fd with
                   | Some Listening => true
                   | _ => false
                   end)
             (map_to_list (listening h))
  || existsb (fun '(_, bound) =>
                match bound with
                | Some p => p =? port
                | None => false
                end)
             (map_to_list (embryos h)).

(** [socket(PF_INET, SOCK_STREAM, 0)]. *)
Definition sys_socket (h : Host) : Z * Host :=
  let fd := lowest_free h in
  if fd <? nofile h then (fd, with_embryos h (<[fd := None]> (embryos h)))
  else (-1, h).

(** [setsockopt(fd, SOL_SOCKET, SO_REUSEADDR, ...)]: fails on a descriptor
    that is not an open socket. *)
Definition sys_setsockopt (h : Host) (fd : Z) : Z * Host :=
  match fds (env h) !! fd, embryos h !! fd with
  | None, None => (-1, h)
  | _, _ => (0, h)
  end.

(** The port a socket that asks for any port gets: the first candidate,
    a port number other than 0, that nobody holds; none when every
    candidate is held. *)
Definition any_port (h : Host) : option Z :=
  find (fun p => (0 <? p) && (p <? 2 ^ 16) && negb (port_taken h p))
       (ephemeral h).

(** The port [bind] gives a socket that asks for [port]: port 0 asks for any
    free port, another port for itself, and fails when it is held. *)
Definition bound_port (h : Host) (port : Z) : option Z :=
  if port =? 0 then any_port h
  else if port_taken h port then None else Some port.

(** [bind] of a fresh socket to [port] on the wildcard address. *)
Definition sys_bind (h : Host) (fd : Z) (port : Z) : Z * Host :=
  match embryos h !! fd with
  | Some None =>
      match bound_port h port with
      | Some p => (0, with_embryos h (<[fd := Some p]> (embryos h)))
      | None => (-1, h)
      end
  | _ => (-1, h)
  end.

(** [listen(fd, backlog)]; a socket that was not bound is bound to any free
    port first. *)
Definition sys_listen (h : Host) (fd : Z) (backlog : Z) : Z * Host :=
  match embryos h !! fd with
  | Some bound =>
      match (match bound with Some p => Some p | None => any_port h end) with
      | Some p =>
          (0, mkHost (with_fds (env h) (<[fd := Listening]> (fds (env h))))
                     (delete fd (embryos h))
                     (<[fd := p]> (listening h))
                     (others h) (busy h) (nofile h) (pending h) (stderr h)
                     (ephemeral h))
      | None => (-1, h)
      end
  | None =>
      match fds (env h) !! fd with
      | Some Listening => (0, h)
      | _ => (-1, h)
      end
  end.

(** [accept(fd, ...)] on a blocking socket: [None] when no peer ever
    connects and the call does not come back. *)
Definition sys_accept (h : Host) (fd : Z) : option (Z * Host) :=
  match fds (env h) !! fd with
  | Some Listening =>
      match pending h with
      | O => None
      | S waiting =>
          let peer := lowest_free h in
          if peer <? nofile h
          then Some (peer,
                     mkHost (with_fds (env h)
                               (<[peer := Connected]> (fds (env h))))
                            (embryos h) (listening h) (others h) (busy h)
                            (nofile h) waiting (stderr h) (ephemeral h))
          else Some (-1, h)
      end
  | _ => Some (-1, h)
  end.

(** [htons(port)]: the argument becomes a [uint16_t]; the result names that
    port in the socket address. *)
Definition htons (port : Z) : Z := port mod 2 ^ 16.

(** ** The connection lifecycle ([Setup], [Start]) *)

(** A call of [Setup] or [Start] returns, ends the process, or waits for
    ever. *)
Inductive Boot : Type :=
| Ready (s : Server) (h : Host)
| Halted (status : Z) (h : Host)
| Waiting (h : Host).

Definition set_server_fd (s : Server) (fd : Z) : Server :=
  mkServer (port_ s) (debug_ s) fd (client_fd_ s) (total_bytes_sent_ s).

Definition set_client_fd (s : Server) (fd : Z) : Server :=
  mkServer (port_ s) (debug_ s) (server_fd_ s) fd (total_bytes_sent_ s).

Definition Setup (s : Server) (h : Host) : Boot :=
  let '(fd, h1) := sys_socket h in
  let s1 := set_server_fd s fd in
  if server_fd_ s1 <? 0 then Halted EXIT_FAILURE (perror "socket failed" h1)
  else
    let '(r, h2) := sys_setsockopt h1 (server_fd_ s1) in
    if r <? 0 then
      Halted EXIT_FAILURE
             (with_env h2 (FatalLog "Failed to set socket option" (env h2)))
    else
      let '(r, h3) := sys_bind h2 (server_fd_ s1) (htons (port_ s1)) in
      if r <? 0 then
        Halted EXIT_FAILURE
               (with_env h3 (FatalLog "Failed to bind socket" (env h3)))
      else
        let '(r, h4) := sys_listen h3 (server_fd_ s1) 3 in
        if r <? 0 then
          Halted EXIT_FAILURE
                 (with_env h4 (FatalLog "Failed to listen on socket" (env h4)))
        else
          Ready s1
                (with_env h4
                   (TraceLog "Server listening on port " [port_ s1]
                             (debug_ s1) (env h4))).

Definition Start (s : Server) (h : Host) : Boot :=
  match sys_accept h (server_fd_ s) with
  | None => Waiting h
  | Some (fd, h1) =>
      let s1 := set_client_fd s fd in
      if client_fd_ s1 <? 0 then
        Halted EXIT_FAILURE
               (with_env h1 (FatalLog "Failed to accept client" (env h1)))
      else
        Ready s1
              (with_env h1 (TraceLog "Client connected" [] (debug_ s1)
                                     (env h1)))
  end.

Module Scenario.

(** A process with the three standard descriptors open and no socket, a
    limit of 1024 descriptors, port 8080 held by another process and
    [peers] peers waiting; a socket that asks for any port is offered 8080,
    then 32768, then 32769. *)
Definition host (o : ByteOrder) (chunk : Z) (peers : nat) : Host :=
  mkHost (mkWorld o ∅ (fun _ => chunk) 0 [] [] [])
         ∅ ∅ {[ 0; 1; 2 ]} {[ 8080 ]} 1024 peers [] [8080; 32768; 32769].

(** An object that was constructed and nothing else.  The constructor sets
    [port_] and [debug_]; what the other members hold then is decided in
    [server.hpp], which is not part of the sources at hand: here the
    descriptors hold [-1], which names no descriptor, and the counter 0. *)
Definition fresh (port : Z) (debug : bool) : Server :=
  mkServer port debug (-1) (-1) 0.

End Scenario.

(** What a transfer never touches. *)
Definition same_env (w w' : World) : Prop :=
  byte_order w' = byte_order w /\ fds w' = fds w /\ sched w' = sched w
  /\ log w' = log w.

(** * Properties *)

(** ** Object representation *)

Section Representation.

Lemma byte_val_range (b : byte) : 0 <= byte_val b < 256.
Proof.
  unfold byte_val. pose proof (Byte.to_N_bounded b). lia.
Qed.

Lemma byte_val_of (x : Z) : byte_val (byte_of x) = x mod 256.
Proof.
  unfold byte_val, byte_of.
  pose proof (Z.mod_pos_bound x 256 ltac:(lia)) as Hx.
  destruct (Byte.of_N (Z.to_N (x mod 256))) as [b|] eqn:E.
  - apply Byte.to_of_N in E. rewrite E. lia.
  - apply Byte.of_N_None_iff in E. lia.
Qed.

Lemma length_le_bytes (n : nat) (x : Z) : length (le_bytes n x) = n.
Proof.
  revert x. induction n as [|n IH]; intros x; simpl; [reflexivity|].
  now rewrite IH.
Qed.

Lemma le_value_le_bytes (n : nat) (x : Z) :
  le_value (le_bytes n x) = x mod 256 ^ Z.of_nat n.
Proof.
  revert x. induction n as [|n IH]; intros x.
  - simpl. now rewrite Z.mod_1_r.
  - cbn [le_bytes le_value]. rewrite IH, byte_val_of.
    rewrite Nat2Z.inj_succ, Z.pow_succ_r by lia.
    rewrite Z.rem_mul_r; lia.
Qed.

Lemma length_object_bytes (o : ByteOrder) (n : nat) (x : Z) :
  length (object_bytes o n x) = n.
Proof.
  destruct o; simpl; [|rewrite length_rev]; apply length_le_bytes.
Qed.

Lemma object_value_bytes (o : ByteOrder) (n : nat) (x : Z) :
  object_value o (object_bytes o n x) = x mod 256 ^ Z.of_nat n.
Proof.
  destruct o; simpl; [|rewrite rev_involutive]; apply le_value_le_bytes.
Qed.

Lemma object_value_u32 (o : ByteOrder) (x : Z) :
  is_u32 x -> object_value o (object_bytes o 4 x) = x.
Proof.
  intros Hx. rewrite object_value_bytes. apply Z.mod_small. exact Hx.
Qed.

Lemma object_value_u64 (o : ByteOrder) (x : Z) :
  is_u64 x -> object_value o (object_bytes o 8 x) = x.
Proof.
  intros Hx. rewrite object_value_bytes. apply Z.mod_small. exact Hx.
Qed.

Lemma length_data_bytes (o : ByteOrder) (v : list Z) :
  length (data_bytes o v) = (4 * length v)%nat.
Proof.
  induction v as [|x v IH]; simpl; [reflexivity|].
  rewrite length_app, length_object_bytes, IH. lia.
Qed.

Lemma data_values_bytes (o : ByteOrder) (v : list Z) (rest : list byte) :
  Forall is_u32 v ->
  data_values o (length v) (data_bytes o v ++ rest) = v.
Proof.
  induction 1 as [|x v Hx Hv IH]; simpl; [reflexivity|].
  rewrite <- app_assoc.
  rewrite take_app_length' by (symmetry; apply length_object_bytes).
  rewrite drop_app_length' by (symmetry; apply length_object_bytes).
  now rewrite object_value_u32, IH.
Qed.

Lemma length_data_values (o : ByteOrder) (n : nat) (bs : list byte) :
  length (data_values o n bs) = n.
Proof.
  revert bs. induction n as [|n IH]; intros bs; simpl; [reflexivity|].
  now rewrite IH.
Qed.

Lemma u64_vector_size (v : list Z) :
  Z.of_nat (length v) <= max_size ->
  u64 (Z.of_nat (length v) * 4) = 4 * Z.of_nat (length v).
Proof.
  unfold max_size, u64. intros H. rewrite Z.mod_small; lia.
Qed.

End Representation.

(** ** The transfer loops *)

Lemma same_env_refl (w : World) : same_env w w.
Proof. repeat split. Qed.

Lemma same_env_trans (w1 w2 w3 : World) :
  same_env w1 w2 -> same_env w2 w3 -> same_env w1 w3.
Proof.
  unfold same_env. intros (?&?&?&?) (?&?&?&?). repeat split; congruence.
Qed.

Lemma sys_send_spec (w : World) (fd : Z) (buf : list byte) (n : Z)
  (w' : World) :
  sys_send w fd buf = (n, w') ->
  same_env w w' /\ rx w' = rx w /\ syscalls w' = S (syscalls w)
  /\ ((n = -1 /\ tx w' = tx w)
      \/ (n = Z.of_nat (length (take (Z.to_nat n) buf))
          /\ (buf <> [] -> 0 < n)
          /\ tx w' = tx w ++ take (Z.to_nat n) buf)).
Proof.
  unfold sys_send. intros H.
  assert (Hfail : (-1, transferred w [] (rx w)) = (n, w') ->
    same_env w w' /\ rx w' = rx w /\ syscalls w' = S (syscalls w)
    /\ ((n = -1 /\ tx w' = tx w)
      \/ (n = Z.of_nat (length (take (Z.to_nat n) buf))
          /\ (buf <> [] -> 0 < n)
          /\ tx w' = tx w ++ take (Z.to_nat n) buf))).
  { intros [= <- <-]. simpl. rewrite app_nil_r.
    repeat split. left. split; reflexivity. }
  destruct (fds w !! fd) as [[|]|]; try (apply Hfail; exact H).
  set (c := sched w (syscalls w)) in *.
  destruct (Z.leb_spec c 0) as [Hc|Hc]; [apply Hfail; exact H|].
  injection H as <- <-. simpl.
  assert (Htake : take (Z.to_nat (Z.of_nat (length (take (Z.to_nat c) buf))))
                       buf
                  = take (Z.to_nat c) buf).
  { rewrite Nat2Z.id, length_take.
    destruct (Nat.min_spec (Z.to_nat c) (length buf)) as [[_ ->]|[Hle ->]];
      [reflexivity|].
    rewrite take_ge by lia. rewrite take_ge by lia. reflexivity. }
  repeat split. right. rewrite Htake. repeat split.
  intros Hne. rewrite length_take.
  destruct buf; [congruence|]. simpl length. lia.
Qed.

Lemma take_drop_taken {A : Type} (m : nat) (l : list A) :
  take m l ++ drop (length (take m l)) l = l.
Proof.
  rewrite length_take.
  destruct (Nat.min_spec m (length l)) as [[_ ->]|[Hle ->]];
    [apply take_drop|].
  rewrite take_ge, drop_ge by lia. apply app_nil_r.
Qed.

Lemma sys_recv_spec (w : World) (fd : Z) (len : nat) (n : Z)
  (chunk : list byte)
  (w' : World) :
  sys_recv w fd len = (n, chunk, w') ->
  same_env w w' /\ tx w' = tx w /\ syscalls w' = S (syscalls w)
  /\ rx w = chunk ++ rx w' /\ (length chunk <= len)%nat
  /\ ((n = -1 /\ chunk = []) \/ n = Z.of_nat (length chunk)).
Proof.
  unfold sys_recv. intros H.
  assert (Hfail : (-1, [], transferred w [] (rx w)) = (n, chunk, w') ->
    same_env w w' /\ tx w' = tx w /\ syscalls w' = S (syscalls w)
    /\ rx w = chunk ++ rx w' /\ (length chunk <= len)%nat
    /\ ((n = -1 /\ chunk = []) \/ n = Z.of_nat (length chunk))).
  { intros [= <- <- <-]. simpl. rewrite app_nil_r.
    repeat split; [lia|]. left. split; reflexivity. }
  destruct (fds w !! fd) as [[|]|]; try (apply Hfail; exact H).
  destruct (Z.ltb_spec (sched w (syscalls w)) 0) as [Hc|Hc];
    [apply Hfail; exact H|].
  injection H as <- <- <-. simpl. rewrite app_nil_r, take_drop_taken.
  repeat split; [|right; reflexivity].
  rewrite length_take. lia.
Qed.

Lemma SendLoop_spec (fuel : nat) :
  forall (w : World) (fd : Z) (rest : list byte) (ok : bool) (w' : World),
  (length rest <= fuel)%nat ->
  internal.SendLoop fuel w fd rest = (ok, w') ->
  same_env w w' /\ rx w' = rx w
  /\ exists sent unsent,
       rest = sent ++ unsent /\ tx w' = tx w ++ sent
       /\ (ok = true <-> unsent = []).
Proof.
  induction fuel as [|fuel IH]; intros w fd rest ok w' Hfuel H.
  - destruct rest as [|b rest]; [|simpl in Hfuel; lia].
    injection H as <- <-. split; [apply same_env_refl|]. split; [reflexivity|].
    exists [], []. simpl. rewrite app_nil_r. repeat split.
  - destruct rest as [|b rest].
    + injection H as <- <-. split; [apply same_env_refl|].
      split; [reflexivity|].
      exists [], []. simpl. rewrite app_nil_r. repeat split.
    + cbn [internal.SendLoop] in H.
      destruct (sys_send w fd (b :: rest)) as [n w1] eqn:Hsend.
      apply sys_send_spec in Hsend as (Henv & Hrx & _ & Hn).
      destruct (Z.leb_spec n 0) as [Hle|Hlt].
      * injection H as <- <-. split; [exact Henv|]. split; [exact Hrx|].
        exists [], (b :: rest). simpl. rewrite app_nil_r.
        destruct Hn as [[_ Htx]|(_ & Hpos & _)];
          [|exfalso; assert (0 < n) by (apply Hpos; discriminate); lia].
        repeat split; [exact Htx|discriminate|discriminate].
      * destruct Hn as [[Hn _]|(Hn & _ & Htx)]; [lia|].
        apply IH in H as (Henv' & Hrx' & sent & unsent & Hsplit & Htx' & Hok).
        2:{ rewrite length_drop. simpl length in *. lia. }
        split; [eapply same_env_trans; eassumption|].
        split; [congruence|].
        exists (take (Z.to_nat n) (b :: rest) ++ sent), unsent.
        rewrite <- app_assoc, <- Hsplit, take_drop.
        repeat split; [|apply Hok|apply Hok].
        rewrite Htx', Htx, app_assoc. reflexivity.
Qed.

Lemma RecvLoop_spec (fuel : nat) :
  forall (w : World) (fd : Z) (want : nat) (ok : bool) (got : list byte)
         (w' : World),
  (want <= fuel)%nat ->
  internal.RecvLoop fuel w fd want = (ok, got, w') ->
  same_env w w' /\ tx w' = tx w /\ rx w = got ++ rx w'
  /\ (length got <= want)%nat /\ (ok = true <-> length got = want).
Proof.
  induction fuel as [|fuel IH]; intros w fd want ok got w' Hfuel H.
  - destruct want as [|want]; [|lia].
    injection H as <- <- <-. split; [apply same_env_refl|].
    repeat split; simpl; lia.
  - destruct want as [|want].
    + injection H as <- <- <-. split; [apply same_env_refl|].
      repeat split; simpl; lia.
    + cbn [internal.RecvLoop] in H.
      destruct (sys_recv w fd (S want)) as [[n chunk] w1] eqn:Hrecv.
      apply sys_recv_spec in Hrecv as (Henv & Htx & _ & Hrx & Hlen & Hn).
      destruct (Z.leb_spec n 0) as [Hle|Hlt].
      * injection H as <- <- <-. split; [exact Henv|]. split; [exact Htx|].
        assert (chunk = []) as ->.
        { destruct Hn as [[_ ?]|Hn]; [assumption|].
          destruct chunk; [reflexivity|simpl length in Hn; lia]. }
        simpl in *. repeat split; [exact Hrx|lia|discriminate|discriminate].
      * destruct Hn as [[Hn _]|Hn]; [lia|].
        destruct (internal.RecvLoop fuel w1 fd (S want - length chunk))
          as [[ok' more] w2] eqn:Hrec.
        injection H as <- <- <-.
        apply IH in Hrec as (Henv' & Htx' & Hrx' & Hlen' & Hok); [|lia].
        split; [eapply same_env_trans; eassumption|].
        split; [congruence|].
        rewrite length_app.
        repeat split.
        -- rewrite Hrx, Hrx', app_assoc. reflexivity.
        -- lia.
        -- intros E. apply Hok in E. lia.
        -- intros E. apply Hok. lia.
Qed.

Lemma SendLoop_nil (fuel : nat) (w : World) (fd : Z) :
  internal.SendLoop fuel w fd [] = (true, w).
Proof. destruct fuel; reflexivity. Qed.

(** The bound on the rounds is never what stops a loop: more rounds give
    the same result. *)
Lemma SendLoop_fuel (fuel : nat) :
  forall (w : World) (fd : Z) (rest : list byte) (extra : nat),
  (length rest <= fuel)%nat ->
  internal.SendLoop (fuel + extra) w fd rest
  = internal.SendLoop fuel w fd rest.
Proof.
  induction fuel as [|fuel IH]; intros w fd rest extra Hfuel.
  - destruct rest; [|simpl in Hfuel; lia]. now rewrite !SendLoop_nil.
  - destruct rest as [|b rest]; [reflexivity|].
    change (S fuel + extra)%nat with (S (fuel + extra)).
    cbn [internal.SendLoop].
    destruct (sys_send w fd (b :: rest)) as [n w1] eqn:Hsend.
    apply sys_send_spec in Hsend as (_ & _ & _ & Hn).
    destruct (Z.leb_spec n 0) as [Hle|Hlt]; [reflexivity|].
    apply IH. rewrite length_drop. simpl length in *. lia.
Qed.

Lemma RecvLoop_fuel (fuel : nat) :
  forall (w : World) (fd : Z) (want extra : nat),
  (want <= fuel)%nat ->
  internal.RecvLoop (fuel + extra) w fd want
  = internal.RecvLoop fuel w fd want.
Proof.
  induction fuel as [|fuel IH]; intros w fd want extra Hfuel.
  - destruct want; [|lia]. destruct extra; reflexivity.
  - destruct want as [|want]; [reflexivity|].
    change (S fuel + extra)%nat with (S (fuel + extra)).
    cbn [internal.RecvLoop].
    destruct (sys_recv w fd (S want)) as [[n chunk] w1] eqn:Hrecv.
    apply sys_recv_spec in Hrecv as (_ & _ & _ & _ & _ & Hn).
    destruct (Z.leb_spec n 0) as [Hle|Hlt]; [reflexivity|].
    rewrite IH; [reflexivity|]. lia.
Qed.

Lemma SendData_spec (w : World) (fd : Z) (buf : list byte) (ok : bool)
  (w' : World) :
  internal.SendData w fd buf = (ok, w') ->
  same_env w w' /\ rx w' = rx w
  /\ exists sent unsent,
       buf = sent ++ unsent /\ tx w' = tx w ++ sent
       /\ (ok = true <-> unsent = []).
Proof. apply SendLoop_spec. lia. Qed.

Lemma SendData_true (w : World) (fd : Z) (buf : list byte) (w' : World) :
  internal.SendData w fd buf = (true, w') ->
  same_env w w' /\ rx w' = rx w /\ tx w' = tx w ++ buf.
Proof.
  intros H.
  apply SendData_spec in H
    as (Henv & Hrx & sent & unsent & -> & Htx & Hok).
  assert (unsent = []) as -> by (apply Hok; reflexivity).
  rewrite app_nil_r. auto.
Qed.

Lemma RecvData_spec (w : World) (fd : Z) (buf : list byte) (ok : bool)
  (bytes : list byte) (w' : World) :
  internal.RecvData w fd buf = (ok, bytes, w') ->
  same_env w w' /\ tx w' = tx w
  /\ exists got,
       rx w = got ++ rx w' /\ (length got <= length buf)%nat
       /\ bytes = got ++ drop (length got) buf
       /\ (ok = true <-> length got = length buf).
Proof.
  unfold internal.RecvData.
  destruct (internal.RecvLoop (length buf) w fd (length buf))
    as [[ok' got] w1] eqn:Hloop.
  intros [= <- <- <-].
  apply RecvLoop_spec in Hloop as (Henv & Htx & Hrx & Hlen & Hok); [|lia].
  split; [exact Henv|]. split; [exact Htx|]. exists got. auto.
Qed.

Lemma RecvData_true (w : World) (fd : Z) (buf bytes : list byte)
  (w' : World) :
  internal.RecvData w fd buf = (true, bytes, w') ->
  same_env w w' /\ tx w' = tx w /\ rx w = bytes ++ rx w'
  /\ length bytes = length buf.
Proof.
  intros H. apply RecvData_spec in H as (Henv & Htx & got & Hrx & _ & -> & Hok).
  assert (Hlen : length got = length buf) by (apply Hok; reflexivity).
  rewrite drop_ge by lia. rewrite app_nil_r. auto.
Qed.

(** ** The byte-exact primitives *)

(** C1.  [SendData] and [RecvData] answer [true] exactly when the whole
    length went over the stream: the stream towards the peer grew by
    [length buf] bytes, respectively [length buf] bytes were taken from the
    incoming stream.  Any run that stops earlier (a short count followed by
    an error, an error, a peer that closed) answers [false].  For a length of
    zero the answer is [true] and the environment, the count of transfer
    calls included, is the one before the call. *)
Theorem SendData_RecvData_exact (w : World) (fd : Z) (buf : list byte) :
  (let '(ok, w') := internal.SendData w fd buf in
   ok = true <->
   Z.of_nat (length (tx w')) - Z.of_nat (length (tx w))
   = Z.of_nat (length buf))
  /\ (let '(ok, _, w') := internal.RecvData w fd buf in
      ok = true <->
      Z.of_nat (length (rx w)) - Z.of_nat (length (rx w'))
      = Z.of_nat (length buf))
  /\ internal.SendData w fd [] = (true, w)
  /\ internal.RecvData w fd [] = (true, [], w).
Proof.
  split; [|split; [|split; reflexivity]].
  - destruct (internal.SendData w fd buf) as [ok w'] eqn:H.
    apply SendData_spec in H as (_ & _ & sent & unsent & -> & -> & Hok).
    rewrite !length_app. rewrite Hok. split.
    + intros ->. simpl. lia.
    + intros E. destruct unsent; [reflexivity|simpl in E; lia].
  - destruct (internal.RecvData w fd buf) as [[ok bytes] w'] eqn:H.
    apply RecvData_spec in H as (_ & _ & got & -> & _ & _ & Hok).
    rewrite length_app, Hok. lia.
Qed.

(** ** Logging and closing leave the streams alone *)

Lemma TraceLog_streams (msg : string) (values : list Z) (debug : bool)
  (w : World) :
  tx (TraceLog msg values debug w) = tx w
  /\ rx (TraceLog msg values debug w) = rx w
  /\ fds (TraceLog msg values debug w) = fds w.
Proof. destruct debug; repeat split. Qed.

Lemma sys_close_spec (w : World) (fd : Z) :
  fds (sys_close w fd).2 = delete fd (fds w)
  /\ log (sys_close w fd).2 = log w
  /\ tx (sys_close w fd).2 = tx w
  /\ rx (sys_close w fd).2 = rx w.
Proof.
  unfold sys_close. destruct (fds w !! fd) eqn:E; simpl; repeat split.
  symmetry. apply delete_id. exact E.
Qed.


Lemma CloseSocket_spec (s : Server) (w : World) :
  fds (CloseSocket s w) = delete (client_fd_ s) (delete (server_fd_ s) (fds w))
  /\ log (CloseSocket s w) = log w.
Proof.
  unfold CloseSocket.
  pose proof (sys_close_spec w (server_fd_ s)) as (Hf1 & Hl1 & _).
  destruct (sys_close w (server_fd_ s)) as [r1 w1]. simpl in Hf1, Hl1.
  pose proof (sys_close_spec w1 (client_fd_ s)) as (Hf2 & Hl2 & _).
  destruct (sys_close w1 (client_fd_ s)) as [r2 w2]. simpl in Hf2, Hl2.
  split; congruence.
Qed.


Lemma CloseSocket_closed (s : Server) (w : World) :
  fds (CloseSocket s w) !! server_fd_ s = None
  /\ fds (CloseSocket s w) !! client_fd_ s = None.
Proof.
  destruct (CloseSocket_spec s w) as [-> _]. split.
  - destruct (decide (client_fd_ s = server_fd_ s)) as [->|Hne].
    + apply lookup_delete_eq.
    + rewrite lookup_delete_ne by exact Hne. apply lookup_delete_eq.
  - apply lookup_delete_eq.
Qed.

(** ** What a call that returns has done *)

Ltac split_transfer H :=
  match type of H with
  | context [internal.SendData ?w ?fd ?buf] =>
      let ok := fresh "ok" in
      let w1 := fresh "w1" in
      let E := fresh "Hsend" in
      destruct (internal.SendData w fd buf) as [ok w1] eqn:E
  | context [internal.RecvData ?w ?fd ?buf] =>
      let ok := fresh "ok" in
      let bytes := fresh "bytes" in
      let w1 := fresh "w1" in
      let E := fresh "Hrecv" in
      destruct (internal.RecvData w fd buf) as [[ok bytes] w1] eqn:E
  end.

Lemma SendValue_Returned (value : Z) (s : Server) (w : World) (r : unit)
  (s' : Server) (w' : World) :
  SendValue value s w = Returned r s' w' ->
  s' = add_bytes_sent s 4
  /\ tx w' = tx w ++ object_bytes (byte_order w) 4 value
  /\ rx w' = rx w.
Proof.
  unfold SendValue, fatal. intros H. split_transfer H.
  destruct ok; simpl in H; [|discriminate].
  injection H as _ <- <-.
  apply SendData_true in Hsend as (_ & Hrx & Htx).
  match goal with
  | |- context [TraceLog ?m ?v ?d ?w0] =>
      destruct (TraceLog_streams m v d w0) as (-> & -> & _)
  end.
  auto.
Qed.

Lemma SendVector_Returned (vector : list Z) (s : Server) (w : World)
  (r : unit) (s' : Server) (w' : World) :
  SendVector vector s w = Returned r s' w' ->
  s' = add_bytes_sent s (8 + u64 (Z.of_nat (length vector) * 4))
  /\ tx w' = tx w
             ++ object_bytes (byte_order w) 8
                             (u64 (Z.of_nat (length vector) * 4))
             ++ take (Z.to_nat (u64 (Z.of_nat (length vector) * 4)))
                     (data_bytes (byte_order w) vector)
  /\ rx w' = rx w.
Proof.
  unfold SendVector, fatal. intros H. split_transfer H. split_transfer H.
  destruct ok, ok0; simpl in H; try discriminate.
  injection H as _ <- <-.
  apply SendData_true in Hsend as (_ & Hrx & Htx).
  apply SendData_true in Hsend0 as (_ & Hrx0 & Htx0).
  match goal with
  | |- context [TraceLog ?m ?v ?d ?w0] =>
      destruct (TraceLog_streams m v d w0) as (-> & -> & _)
  end.
  rewrite Htx0, Htx, Hrx0, Hrx, <- app_assoc. auto.
Qed.

Lemma SendArray2_Returned (array : array2) (s : Server) (w : World) (r : unit)
  (s' : Server) (w' : World) :
  SendArray2 array s w = Returned r s' w' ->
  s' = add_bytes_sent s 8
  /\ tx w' = tx w ++ data_bytes (byte_order w) (array2_elems array)
  /\ rx w' = rx w.
Proof.
  unfold SendArray2, fatal. intros H. split_transfer H.
  destruct ok; simpl in H; [|discriminate].
  injection H as _ <- <-.
  apply SendData_true in Hsend as (_ & Hrx & Htx).
  match goal with
  | |- context [TraceLog ?m ?v ?d ?w0] =>
      destruct (TraceLog_streams m v d w0) as (-> & -> & _)
  end.
  auto.
Qed.

Lemma SendArray4_Returned (array : array4) (s : Server) (w : World) (r : unit)
  (s' : Server) (w' : World) :
  SendArray4 array s w = Returned r s' w' ->
  s' = add_bytes_sent s 16
  /\ tx w' = tx w ++ data_bytes (byte_order w) (array4_elems array)
  /\ rx w' = rx w.
Proof.
  unfold SendArray4, fatal. intros H. split_transfer H.
  destruct ok; simpl in H; [|discriminate].
  injection H as _ <- <-.
  apply SendData_true in Hsend as (_ & Hrx & Htx).
  match goal with
  | |- context [TraceLog ?m ?v ?d ?w0] =>
      destruct (TraceLog_streams m v d w0) as (-> & -> & _)
  end.
  auto.
Qed.

Ltac trace_streams :=
  match goal with
  | |- context [TraceLog ?m ?v ?d ?w0] =>
      destruct (TraceLog_streams m v d w0) as (-> & -> & _)
  end.

Lemma le_value_nonneg (bs : list byte) : 0 <= le_value bs.
Proof.
  induction bs as [|b bs IH]; simpl; [lia|].
  pose proof (byte_val_range b). lia.
Qed.

Lemma object_value_nonneg (o : ByteOrder) (bs : list byte) :
  0 <= object_value o bs.
Proof. destruct o; apply le_value_nonneg. Qed.

Lemma RecvValue_Returned (value : Z) (s : Server) (w : World) (value' : Z)
  (s' : Server) (w' : World) :
  RecvValue value s w = Returned value' s' w' ->
  s' = s /\ tx w' = tx w
  /\ exists bytes,
       rx w = bytes ++ rx w' /\ length bytes = 4%nat
       /\ value' = object_value (byte_order w) bytes.
Proof.
  unfold RecvValue, fatal. intros H. split_transfer H.
  destruct ok; simpl in H; [|discriminate].
  injection H as <- <- <-.
  apply RecvData_true in Hrecv as (_ & Htx & Hrx & Hlen).
  rewrite length_object_bytes in Hlen.
  trace_streams. split; [reflexivity|]. split; [exact Htx|].
  exists bytes. auto.
Qed.

Lemma RecvVector_inv (vector : list Z) (s : Server) (w : World)
  (vector' : list Z) (s' : Server) (w' : World) :
  RecvVector vector s w = Returned vector' s' w' ->
  s' = s /\ tx w' = tx w
  /\ exists size_bytes payload,
       rx w = size_bytes ++ payload ++ rx w'
       /\ length size_bytes = 8%nat
       /\ Z.of_nat (length payload) = object_value (byte_order w) size_bytes
       /\ vector' =
          data_values (byte_order w)
            (Z.to_nat (object_value (byte_order w) size_bytes / 4)) payload
       /\ object_value (byte_order w) size_bytes mod 4 = 0
       /\ object_value (byte_order w) size_bytes / 4 <= max_size.
Proof.
  unfold RecvVector, fatal, recv_into_null. intros H. split_transfer H.
  set (vs := object_value (byte_order w) bytes) in *.
  destruct (Z.ltb_spec max_size (vs / 4)) as [Hbig|Hfit]; [discriminate|].
  destruct ((vs / 4 =? 0) && (0 <? vs)) eqn:Hnull.
  { destruct (4 * (vs / 4) <? _); [discriminate|].
    rewrite andb_false_r in H. discriminate. }
  split_transfer H.
  destruct (Z.ltb_spec (4 * (vs / 4)) (stored w1 w0)) as [Hout|Hin];
    [discriminate|].
  destruct ok, ok0; simpl in H; try discriminate.
  injection H as <- <- <-.
  apply RecvData_true in Hrecv as (_ & Htx & Hrx & Hlen).
  apply RecvData_true in Hrecv0 as (_ & Htx0 & Hrx0 & Hlen0).
  rewrite length_object_bytes in Hlen.
  rewrite length_app, length_data_bytes, !repeat_length in Hlen0.
  pose proof (object_value_nonneg (byte_order w) bytes) as Hnn.
  fold vs in Hnn.
  pose proof (Z.div_mod vs 4 ltac:(lia)).
  pose proof (Z.mod_pos_bound vs 4 ltac:(lia)).
  assert (0 <= vs / 4) by (apply Z.div_pos; lia).
  unfold stored in Hin. rewrite Hrx0, length_app in Hin.
  trace_streams. split; [reflexivity|]. split; [congruence|].
  exists bytes, bytes0. rewrite repeat_length. subst vs.
  repeat split; [congruence|exact Hlen|lia|lia|lia].
Qed.

Lemma RecvVector_Returned (vector : list Z) (s : Server) (w : World)
  (vector' : list Z) (s' : Server) (w' : World) :
  RecvVector vector s w = Returned vector' s' w' ->
  s' = s /\ tx w' = tx w
  /\ exists size_bytes payload,
       rx w = size_bytes ++ payload ++ rx w'
       /\ length size_bytes = 8%nat
       /\ Z.of_nat (length payload) = object_value (byte_order w) size_bytes
       /\ vector' =
          data_values (byte_order w)
            (Z.to_nat (object_value (byte_order w) size_bytes / 4)) payload.
Proof.
  intros H. apply RecvVector_inv in H
    as (Hs & Htx & size_bytes & payload & Hrx & Hlen & Hplen & Hv & _).
  split; [exact Hs|]. split; [exact Htx|]. exists size_bytes, payload. auto.
Qed.

Lemma RecvArray2_Returned (array : array2) (s : Server) (w : World)
  (array' : array2) (s' : Server) (w' : World) :
  RecvArray2 array s w = Returned array' s' w' ->
  s' = s /\ tx w' = tx w
  /\ exists bytes,
       rx w = bytes ++ rx w' /\ length bytes = 8%nat
       /\ array' = array2_of_elems (data_values (byte_order w) 2 bytes).
Proof.
  unfold RecvArray2, fatal. intros H. split_transfer H.
  destruct ok; simpl in H; [|discriminate].
  injection H as <- <- <-.
  apply RecvData_true in Hrecv as (_ & Htx & Hrx & Hlen).
  rewrite length_data_bytes in Hlen. destruct array as [a0 a1].
  trace_streams. split; [reflexivity|]. split; [exact Htx|].
  exists bytes. auto.
Qed.

Lemma RecvArray4_Returned (array : array4) (s : Server) (w : World)
  (array' : array4) (s' : Server) (w' : World) :
  RecvArray4 array s w = Returned array' s' w' ->
  s' = s /\ tx w' = tx w
  /\ exists bytes,
       rx w = bytes ++ rx w' /\ length bytes = 16%nat
       /\ array' = array4_of_elems (data_values (byte_order w) 4 bytes).
Proof.
  unfold RecvArray4, fatal. intros H. split_transfer H.
  destruct ok; simpl in H; [|discriminate].
  injection H as <- <- <-.
  apply RecvData_true in Hrecv as (_ & Htx & Hrx & Hlen).
  rewrite length_data_bytes in Hlen. destruct array as [[[a0 a1] a2] a3].
  trace_streams. split; [reflexivity|]. split; [exact Htx|].
  exists bytes. auto.
Qed.

(** ** Wire format of a dynamic sequence *)

Lemma vector_payload (o : ByteOrder) (vector : list Z) :
  Z.of_nat (length vector) <= max_size ->
  take (Z.to_nat (u64 (Z.of_nat (length vector) * 4))) (data_bytes o vector)
  = data_bytes o vector.
Proof.
  intros H. rewrite u64_vector_size by exact H.
  apply take_ge. rewrite length_data_bytes. lia.
Qed.

(** C3.  A [SendVector] that returns has put on the stream, after what was
    there, eight bytes that are the object representation of the unsigned
    64-bit number [4 * N], and then the [4 * N] bytes of the [N] elements,
    each element in the byte order of the host, in the order of the vector. *)
Theorem SendVector_wire (vector : list Z) (s : Server) (w : World) (r : unit)
  (s' : Server) (w' : World) :
  is_vector vector ->
  SendVector vector s w = Returned r s' w' ->
  exists count payload,
    tx w' = tx w ++ count ++ payload
    /\ length count = 8%nat
    /\ count = object_bytes (byte_order w) 8 (4 * Z.of_nat (length vector))
    /\ object_value (byte_order w) count = 4 * Z.of_nat (length vector)
    /\ Z.of_nat (length payload) = 4 * Z.of_nat (length vector)
    /\ payload = data_bytes (byte_order w) vector
    /\ data_values (byte_order w) (length vector) payload = vector.
Proof.
  intros [Hu32 Hmax] H.
  apply SendVector_Returned in H as (_ & Htx & _).
  rewrite vector_payload, u64_vector_size in Htx by exact Hmax.
  eexists _, _. split; [exact Htx|].
  split; [apply length_object_bytes|]. split; [reflexivity|].
  split.
  { apply object_value_u64. unfold is_u64, max_size in *. lia. }
  split; [rewrite length_data_bytes; lia|]. split; [reflexivity|].
  rewrite <- (app_nil_r (data_bytes _ _)). apply data_values_bytes, Hu32.
Qed.

(** The example of the specification: [[1, 2, 3]] on a little-endian host. *)
Lemma SendVector_wire_witness :
  is_vector [1; 2; 3]
  /\ exists s' w',
       SendVector [1; 2; 3] (Example.server false)
                  (Example.world LittleEndian 5 []) = Returned tt s' w'
       /\ tx w' = [x0c; x00; x00; x00; x00; x00; x00; x00;
                   x01; x00; x00; x00; x02; x00; x00; x00;
                   x03; x00; x00; x00]%byte.
Proof.
  assert (Hv : is_vector [1; 2; 3]).
  { split; [repeat constructor; unfold is_u32; lia|].
    unfold max_size. simpl. lia. }
  split; [exact Hv|].
  eexists _, _. split; [vm_compute; reflexivity|].
  destruct (SendVector_wire [1; 2; 3] (Example.server false)
              (Example.world LittleEndian 5 []) tt _ _ Hv eq_refl)
    as (count & payload & Htx & _ & -> & _ & _ & -> & _).
  exact Htx.
Defined.

(** ** Round trips over a connected pair *)

Section ConnectedPair.

(** The sender with its environment before and after the call, and the
    receiver: its incoming stream starts with the bytes [wire] the sender
    put on the stream during the call. *)
Variables (sa sa' sb : Server) (wa wa' wb : World).
Variables (wire rest : list byte).

Hypothesis same_order : byte_order wb = byte_order wa.
Hypothesis emitted : tx wa' = tx wa ++ wire.
Hypothesis incoming : rx wb = wire ++ rest.

(** C2.  A vector sent with [SendVector] and received on the peer with
    [RecvVector] arrives as the same values in the same order, whatever the
    receiver passed in, and the receiver has read exactly the bytes of this
    message. *)
Theorem SendVector_RecvVector_roundtrip (vector old vector' : list Z)
  (r : unit) (sb' : Server) (wb' : World) :
  is_vector vector ->
  SendVector vector sa wa = Returned r sa' wa' ->
  RecvVector old sb wb = Returned vector' sb' wb' ->
  vector' = vector /\ rx wb' = rest.
Proof.
  intros Hv Hsend Hrecv.
  destruct (SendVector_wire _ _ _ _ _ _ Hv Hsend)
    as (count & payload & Htx & Hlen & _ & Hval & Hplen & _ & Hvals).
  rewrite emitted in Htx. apply app_inv_head in Htx. subst wire.
  apply RecvVector_Returned in Hrecv
    as (_ & _ & size_bytes & payload' & Hrx & Hlen' & Hplen' & ->).
  rewrite incoming, same_order in *.
  rewrite <- app_assoc in Hrx.
  apply app_inj_1 in Hrx as [<- Hrx]; [|congruence].
  rewrite Hval in *.
  apply app_inj_1 in Hrx as [<- <-]; [|lia].
  split; [|reflexivity].
  replace (4 * Z.of_nat (length vector) / 4) with (Z.of_nat (length vector))
    by (rewrite Z.mul_comm, Z.div_mul; lia).
  rewrite Nat2Z.id. exact Hvals.
Qed.

End ConnectedPair.

Lemma SendVector_RecvVector_roundtrip_witness :
  exists vector' sb' wb',
    RecvVector [7; 7; 7; 7; 7] (Example.server true)
      (Example.world BigEndian 3
         [x00; x00; x00; x00; x00; x00; x00; x08;
          x00; x00; x01; x00; xff; xff; xff; xff; x2a]%byte)
    = Returned vector' sb' wb'
    /\ vector' = [256; 4294967295] /\ rx wb' = [x2a]%byte.
Proof.
  eexists _, _, _. split; [vm_compute; reflexivity|].
  eapply (SendVector_RecvVector_roundtrip
            (Example.server false) _ (Example.server true)
            (Example.world BigEndian 5 []) _
            (Example.world BigEndian 3
               [x00; x00; x00; x00; x00; x00; x00; x08;
                x00; x00; x01; x00; xff; xff; xff; xff; x2a]%byte)
            [x00; x00; x00; x00; x00; x00; x00; x08;
             x00; x00; x01; x00; xff; xff; xff; xff]%byte
            [x2a]%byte
            _ _ _ [256; 4294967295] [7; 7; 7; 7; 7] _ tt).
  - split; [repeat constructor; unfold is_u32; lia|].
    unfold max_size. simpl. lia.
  - vm_compute. reflexivity.
  - vm_compute. reflexivity.
  Unshelve.
  + reflexivity.
  + vm_compute. reflexivity.
  + reflexivity.
Defined.

(** ** The size field decides what [RecvVector] reads *)

(** C10.  When [RecvVector] returns, the vector it leaves has as many
    elements as the byte count in the first eight bytes of the incoming
    stream divided by 4 (integer division), and the call has taken from the
    stream these eight bytes and exactly that count of bytes after them.
    The vector passed in appears nowhere in the result.  A call returns only
    for a count that is a multiple of 4 and names at most [max_size()]
    elements, so the division leaves no remainder. *)
Theorem RecvVector_declared_size (vector : list Z) (s : Server) (w : World)
  (vector' : list Z) (s' : Server) (w' : World) :
  RecvVector vector s w = Returned vector' s' w' ->
  let declared := object_value (byte_order w) (take 8 (rx w)) in
  Z.of_nat (length vector') = declared / 4
  /\ rx w' = drop (8 + Z.to_nat declared) (rx w)
  /\ Z.of_nat (length (rx w)) - Z.of_nat (length (rx w')) = 8 + declared
  /\ declared mod 4 = 0
  /\ declared / 4 <= max_size.
Proof.
  intros H declared.
  apply RecvVector_inv in H
    as (_ & _ & size_bytes & payload & Hrx & Hlen & Hplen & -> & Hmod & Hmax).
  assert (Hsize : take 8 (rx w) = size_bytes).
  { rewrite Hrx. apply take_app_length'. symmetry. exact Hlen. }
  subst declared. rewrite Hsize.
  pose proof (object_value_nonneg (byte_order w) size_bytes) as Hnn.
  split; [|split; [|split; [|split; assumption]]].
  - rewrite length_data_values, Z2Nat.id; [reflexivity|].
    apply Z.div_pos; lia.
  - rewrite Hrx at 1. rewrite app_assoc.
    rewrite drop_app_length'; [reflexivity|].
    rewrite length_app. lia.
  - rewrite Hrx, !length_app. lia.
Qed.

(** The caller passes three elements, the peer declares eight bytes. *)
Lemma RecvVector_declared_size_witness :
  exists vector' s' w',
    RecvVector [9; 9; 9] (Example.server false)
      (Example.world LittleEndian 3
         [x08; x00; x00; x00; x00; x00; x00; x00;
          x01; x01; x00; x00; x02; x00; x00; x00; x03]%byte)
    = Returned vector' s' w'
    /\ Z.of_nat (length vector') = 2
    /\ rx w' = [x03]%byte.
Proof.
  assert (H : exists vector' s' w',
    RecvVector [9; 9; 9] (Example.server false)
      (Example.world LittleEndian 3
         [x08; x00; x00; x00; x00; x00; x00; x00;
          x01; x01; x00; x00; x02; x00; x00; x00; x03]%byte)
    = Returned vector' s' w')
    by (eexists _, _, _; vm_compute; reflexivity).
  destruct H as (vector' & s' & w' & H). exists vector', s', w'.
  split; [exact H|].
  destruct (RecvVector_declared_size _ _ _ _ _ _ H) as (Hlen & Hrx & _).
  split; [exact Hlen|exact Hrx].
Defined.

(** A count that is not a multiple of 4 never gives a vector.  With five
    bytes declared and present the fifth is stored behind the storage of
    [r_vector]; with three declared [r_vector] is empty, the transfer into
    its null pointer fails and the process exits. *)
Lemma RecvVector_odd_sizes :
  RecvVector [] (Example.server false)
    (Example.world LittleEndian 4
       [x05; x00; x00; x00; x00; x00; x00; x00;
        x01; x01; x00; x00; x02]%byte)
  = Undefined
  /\ exists w',
       RecvVector [] (Example.server false)
         (Example.world LittleEndian 4
            [x03; x00; x00; x00; x00; x00; x00; x00; x01; x01; x00]%byte)
       = Exited EXIT_FAILURE w'.
Proof.
  split; [vm_compute; reflexivity|]. eexists. vm_compute. reflexivity.
Qed.

(** ** Transfer accounting: receiving *)



(** ** Failure policy *)

Lemma fatal_spec {A : Type} (msg : string) (s : Server) (w w1 : World) :
  log w1 = log w ->
  exists msg' w',
    @Exited A EXIT_FAILURE (CloseSocket s (FatalLog msg w1))
    = Exited EXIT_FAILURE w'
    /\ log w' = log w ++ [Fatal msg']
    /\ fds w' !! server_fd_ s = None
    /\ fds w' !! client_fd_ s = None.
Proof.
  intros Hlog. eexists _, _. split; [reflexivity|].
  destruct (CloseSocket_spec s (FatalLog msg w1)) as [_ ->].
  split; [simpl; now rewrite Hlog|]. apply CloseSocket_closed.
Qed.

Lemma SendData_log (w : World) (fd : Z) (buf : list byte) :
  log (internal.SendData w fd buf).2 = log w.
Proof.
  destruct (internal.SendData w fd buf) as [ok w'] eqn:E.
  now apply SendData_spec in E as ((_ & _ & _ & ?) & _).
Qed.

Lemma RecvData_log (w : World) (fd : Z) (buf : list byte) :
  log (internal.RecvData w fd buf).2 = log w.
Proof.
  destruct (internal.RecvData w fd buf) as [[ok bytes] w'] eqn:E.
  now apply RecvData_spec in E as ((_ & _ & _ & ?) & _).
Qed.

Ltac one_transfer Hlog :=
  match goal with
  | H : (internal.SendData ?w ?fd ?buf).1 = false |- _ =>
      pose proof (SendData_log w fd buf) as Hlog;
      destruct (internal.SendData w fd buf) as [? ?]; simpl in H, Hlog;
      subst; simpl
  | H : (internal.RecvData ?w ?fd ?buf).1.1 = false |- _ =>
      pose proof (RecvData_log w fd buf) as Hlog;
      destruct (internal.RecvData w fd buf) as [[? ?] ?]; simpl in H, Hlog;
      subst; simpl
  end.

(** What a call whose transfers report failure comes to.  Every operation
    takes the fatal branch, with one exception: [RecvVector] makes
    [r_vector] from the size field before it looks at any result, and may be
    left by the exception of the constructor, or store bytes behind
    [r_vector], before it gets to its own fatal branch. *)
Lemma transfer_failure_outcome (c : Call) (s : Server) (w : World) :
  transfers_succeed c s w = false ->
  match invoke c s w with
  | Returned _ _ _ => False
  | Exited status w' =>
      status = EXIT_FAILURE
      /\ (exists msg, log w' = log w ++ [Fatal msg])
      /\ fds w' !! server_fd_ s = None
      /\ fds w' !! client_fd_ s = None
  | Thrown _ _ _ | Undefined => exists vector, c = CallRecvVector vector
  end.
Proof.
  intros H.
  assert (Hfatal : forall (A : Type) (msg : string) (w1 : World),
    log w1 = log w ->
    match @fatal A msg s w1 with
    | Exited status w' =>
        status = EXIT_FAILURE
        /\ (exists msg, log w' = log w ++ [Fatal msg])
        /\ fds w' !! server_fd_ s = None
        /\ fds w' !! client_fd_ s = None
    | _ => False
    end).
  { intros A msg w1 Hlog. unfold fatal.
    destruct (@fatal_spec A msg s w w1 Hlog) as (msg' & w' & Heq & Hl & Hf).
    injection Heq as <-. split; [reflexivity|]. split; [eauto|exact Hf]. }
  destruct c; unfold transfers_succeed in H; unfold invoke, bind.
  - unfold SendValue. one_transfer Hlog. apply (Hfatal unit), Hlog.
  - unfold RecvValue. one_transfer Hlog. apply (Hfatal Z), Hlog.
  - unfold SendVector. cbv zeta in H.
    pose proof (SendData_log w (client_fd_ s)
      (object_bytes (byte_order w) 8 (u64 (Z.of_nat (length vector) * 4))))
      as Hlog1.
    destruct (internal.SendData w (client_fd_ s) _) as [ok1 w1].
    simpl in H, Hlog1.
    pose proof (SendData_log w1 (client_fd_ s)
      (take (Z.to_nat (u64 (Z.of_nat (length vector) * 4)))
            (data_bytes (byte_order w) vector))) as Hlog2.
    destruct (internal.SendData w1 (client_fd_ s) _) as [ok2 w2].
    simpl in H, Hlog2. rewrite H. cbn [negb].
    apply (Hfatal unit). congruence.
  - unfold RecvVector. cbv zeta in H.
    pose proof (RecvData_log w (client_fd_ s)
      (object_bytes (byte_order w) 8 (u64 (size_of_vector vector * 4))))
      as Hlog1.
    destruct (internal.RecvData w (client_fd_ s) _) as [[ok1 bytes1] w1].
    cbn [fst snd] in H, Hlog1.
    destruct (max_size <? object_value (byte_order w) bytes1 / 4);
      [eexists; reflexivity|].
    match type of H with
    | context [if ?b then recv_into_null w1 ?fd else _] =>
        destruct b
    end.
    + unfold recv_into_null.
      destruct (_ <? _); [eexists; reflexivity|].
      rewrite andb_false_r. cbn [negb]. apply (Hfatal (list Z)).
      cbn [transferred log]. exact Hlog1.
    + match type of H with
      | context [internal.RecvData w1 ?fd ?buf] =>
          pose proof (RecvData_log w1 fd buf) as Hlog2;
          destruct (internal.RecvData w1 fd buf) as [[ok2 bytes2] w2]
      end.
      cbn [fst snd] in H, Hlog2.
      destruct (_ <? _); [eexists; reflexivity|].
      rewrite H. cbn [negb]. apply (Hfatal (list Z)). congruence.
  - unfold SendArray2. one_transfer Hlog. apply (Hfatal unit), Hlog.
  - unfold RecvArray2. one_transfer Hlog. apply (Hfatal array2), Hlog.
  - unfold SendArray4. one_transfer Hlog. apply (Hfatal unit), Hlog.
  - unfold RecvArray4. one_transfer Hlog. apply (Hfatal array4), Hlog.
Qed.

(** C5, where the code departs from it: [RecvVector] uses [vector_size]
    before it looks at the result of the transfer that was to fill it.

    A big-endian host; the peer sends the first byte [ff] of the size field
    and closes.  The transfer of the size reports failure, and [RecvVector]
    does not get to its fatal branch: [vector_size] now starts with [ff],
    [r_vector] would have more than [max_size()] elements, and the
    constructor throws.  Nothing was logged, both descriptors are still
    open, and no [exit] took place.

    A little-endian host; the transfer of the size field stores the byte
    [05] and is then cut by an error, and five more bytes are waiting.  The
    transfer reports failure; [r_vector] gets one element, the second
    transfer asks for five bytes and stores the fifth behind its storage. *)
Theorem RecvVector_failed_transfer_does_not_exit :
  (transfers_succeed (CallRecvVector [])
     (Example.server true) (Example.world BigEndian 8 [xff]%byte) = false
   /\ exists w',
        RecvVector [] (Example.server true)
                   (Example.world BigEndian 8 [xff]%byte)
        = Thrown length_error (Example.server true) w'
        /\ log w' = []
        /\ fds w' !! 3 = Some Listening
        /\ fds w' !! 4 = Some Connected)
  /\ (internal.RecvData
        (Example.interrupted [x05; x01; x02; x03; x04; x05]%byte) 4
        (object_bytes LittleEndian 8 0)).1.1 = false
  /\ transfers_succeed (CallRecvVector []) (Example.server true)
       (Example.interrupted [x05; x01; x02; x03; x04; x05]%byte) = false
  /\ RecvVector [] (Example.server true)
       (Example.interrupted [x05; x01; x02; x03; x04; x05]%byte)
     = Undefined.
Proof.
  split.
  { split; [vm_compute; reflexivity|].
    eexists. split; [vm_compute; reflexivity|]. repeat split. }
  split; [vm_compute; reflexivity|].
  split; vm_compute; reflexivity.
Qed.

(** ** Closing twice *)




(** ** Sends over a stream that takes everything at once *)

Lemma SendData_unthrottled (w : World) (fd : Z) (buf : list byte) (limit : Z) :
  unthrottled w fd limit ->
  Z.of_nat (length buf) <= limit ->
  exists w', internal.SendData w fd buf = (true, w') /\ unthrottled w' fd limit.
Proof.
  intros [Hfd Hsched] Hlen. destruct buf as [|b buf].
  - exists w. split; [reflexivity|split; assumption].
  - pose proof (Hsched (syscalls w)) as Hc.
    unfold internal.SendData.
    change (length (b :: buf)) with (S (length buf)) in *.
    cbn [internal.SendLoop]. unfold sys_send. rewrite Hfd.
    destruct (Z.leb_spec (sched w (syscalls w)) 0) as [Hle|Hlt]; [lia|].
    rewrite (take_ge (b :: buf)) by (simpl length; lia).
    change (length (b :: buf)) with (S (length buf)).
    destruct (Z.leb_spec (Z.of_nat (S (length buf))) 0) as [Hle|_]; [lia|].
    rewrite Nat2Z.id, (drop_ge (b :: buf)) by (simpl length; lia).
    rewrite SendLoop_nil. eexists. split; [reflexivity|].
    split; [exact Hfd|exact Hsched].
Qed.

Lemma TraceLog_unthrottled (msg : string) (values : list Z) (debug : bool)
  (w : World) (fd limit : Z) :
  unthrottled w fd limit -> unthrottled (TraceLog msg values debug w) fd limit.
Proof. destruct debug; intros H; exact H. Qed.

Lemma send_unthrottled (c : Call) (s : Server) (w : World) (limit : Z) :
  is_send c = true ->
  unthrottled w (client_fd_ s) limit ->
  bytes_of c <= limit ->
  exists w',
    invoke c s w = Returned NoResult (add_bytes_sent s (bytes_of c)) w'
    /\ unthrottled w' (client_fd_ s) limit.
Proof.
  intros Hc Hw Hlim. destruct c; try discriminate Hc; clear Hc;
    unfold invoke, bind, ret, bytes_of in *.
  - destruct (SendData_unthrottled w (client_fd_ s)
                (object_bytes (byte_order w) 4 value) limit Hw)
      as (w1 & H1 & Hw1); [rewrite length_object_bytes; lia|].
    unfold SendValue. rewrite H1. simpl. eexists. split; [reflexivity|].
    now apply TraceLog_unthrottled.
  - pose proof (Z.mod_pos_bound (Z.of_nat (length vector) * 4) (2 ^ 64)
                  ltac:(lia)) as Hvs.
    fold (u64 (Z.of_nat (length vector) * 4)) in Hvs.
    destruct (SendData_unthrottled w (client_fd_ s)
                (object_bytes (byte_order w) 8
                   (u64 (Z.of_nat (length vector) * 4))) limit Hw)
      as (w1 & H1 & Hw1); [rewrite length_object_bytes; lia|].
    destruct (SendData_unthrottled w1 (client_fd_ s)
                (take (Z.to_nat (u64 (Z.of_nat (length vector) * 4)))
                      (data_bytes (byte_order w) vector)) limit Hw1)
      as (w2 & H2 & Hw2); [rewrite length_take; lia|].
    unfold SendVector. rewrite H1, H2. simpl. eexists.
    split; [reflexivity|]. now apply TraceLog_unthrottled.
  - destruct (SendData_unthrottled w (client_fd_ s)
                (data_bytes (byte_order w) (array2_elems array)) limit Hw)
      as (w1 & H1 & Hw1).
    { rewrite length_data_bytes. destruct array. simpl. lia. }
    unfold SendArray2. rewrite H1. simpl. eexists. split; [reflexivity|].
    now apply TraceLog_unthrottled.
  - destruct (SendData_unthrottled w (client_fd_ s)
                (data_bytes (byte_order w) (array4_elems array)) limit Hw)
      as (w1 & H1 & Hw1).
    { rewrite length_data_bytes. destruct array as [[[? ?] ?] ?]. simpl. lia. }
    unfold SendArray4. rewrite H1. simpl. eexists. split; [reflexivity|].
    now apply TraceLog_unthrottled.
Qed.

(** ** Transfer accounting: sending *)

Lemma send_Returned (c : Call) (s : Server) (w : World) (r : Result)
  (s' : Server) (w' : World) :
  is_send c = true ->
  invoke c s w = Returned r s' w' ->
  s' = add_bytes_sent s (bytes_of c).
Proof.
  intros Hc H. destruct c; try discriminate Hc; clear Hc;
    unfold invoke, bind, ret in H.
  - destruct (SendValue value s w) eqn:E; try discriminate.
    injection H as _ <- _. now apply SendValue_Returned in E as (-> & _).
  - destruct (SendVector vector s w) eqn:E; try discriminate.
    injection H as _ <- _. now apply SendVector_Returned in E as (-> & _).
  - destruct (SendArray2 array s w) eqn:E; try discriminate.
    injection H as _ <- _. now apply SendArray2_Returned in E as (-> & _).
  - destruct (SendArray4 array s w) eqn:E; try discriminate.
    injection H as _ <- _. now apply SendArray4_Returned in E as (-> & _).
Qed.

Lemma bytes_of_nonneg (c : Call) : 0 <= bytes_of c.
Proof.
  destruct c; simpl; try lia.
  pose proof (Z.mod_pos_bound (Z.of_nat (length vector) * 4) (2 ^ 64)
                ltac:(lia)).
  unfold u64. lia.
Qed.

Lemma u32_vector_bytes (n : Z) :
  u32 (0 + (8 + u64 (n * 4))) = (8 + 4 * n) mod 2 ^ 32.
Proof.
  unfold u32, u64. rewrite Z.add_0_l.
  rewrite (Z.mod_eq (n * 4) (2 ^ 64)) by lia.
  replace (8 + (n * 4 - 2 ^ 64 * (n * 4 / 2 ^ 64)))
    with (8 + 4 * n + - (2 ^ 32 * (n * 4 / 2 ^ 64)) * 2 ^ 32) by lia.
  apply Z_mod_plus_full.
Qed.

Lemma run_readings (cs : list Call) :
  forall (s : Server) (w : World) (rs : list Z) (s' : Server) (w' : World),
  Forall (fun c => is_send c = true) cs ->
  run cs s w = Returned rs s' w' ->
  rs = readings cs (GetTotalBytesSent s).
Proof.
  induction cs as [|c cs IH]; intros s w rs s' w' Hcs H.
  - now injection H as <- _ _.
  - inversion Hcs as [|? ? Hc Hcs']; subst. cbn [run] in H.
    unfold bind in H.
    destruct (invoke c s w) as [r s1 w1| | |] eqn:E; try discriminate.
    destruct (run cs s1 w1) as [rs1 s2 w2| | |] eqn:E'; try discriminate.
    injection H as <- _ _.
    apply (send_Returned _ _ _ _ _ _ Hc) in E. subst s1.
    apply IH in E'; [|exact Hcs']. subst rs1. reflexivity.
Qed.

Lemma readings_sorted (cs : list Call) :
  forall total : Z,
  0 <= total -> total + total_bytes cs < 2 ^ 32 ->
  StronglySorted Z.le (total :: readings cs total).
Proof.
  induction cs as [|c cs IH]; intros total H0 Hsum.
  - repeat constructor.
  - cbn [readings total_bytes] in *.
    pose proof (bytes_of_nonneg c) as Hc.
    assert (Hcs : 0 <= total_bytes cs).
    { clear. induction cs as [|c' cs' IH']; simpl; [lia|].
      pose proof (bytes_of_nonneg c'). lia. }
    assert (Hu : u32 (total + bytes_of c) = total + bytes_of c)
      by (apply Z.mod_small; lia).
    rewrite Hu.
    specialize (IH (total + bytes_of c) ltac:(lia) ltac:(lia)).
    constructor; [exact IH|].
    apply StronglySorted_inv in IH as [_ Hall].
    constructor; [lia|].
    eapply Forall_impl; [exact Hall|]. simpl. intros; lia.
Qed.

Lemma recv_Returned (c : Call) (s : Server) (w : World) (r : Result)
  (s' : Server) (w' : World) :
  is_send c = false ->
  invoke c s w = Returned r s' w' ->
  s' = s.
Proof.
  intros Hc H. destruct c; try discriminate Hc; clear Hc;
    unfold invoke, bind, ret in H.
  - destruct (RecvValue value s w) eqn:E; try discriminate.
    injection H as _ <- _. now apply RecvValue_Returned in E as (-> & _).
  - destruct (RecvVector vector s w) eqn:E; try discriminate.
    injection H as _ <- _. now apply RecvVector_Returned in E as (-> & _).
  - destruct (RecvArray2 array s w) eqn:E; try discriminate.
    injection H as _ <- _. now apply RecvArray2_Returned in E as (-> & _).
  - destruct (RecvArray4 array s w) eqn:E; try discriminate.
    injection H as _ <- _. now apply RecvArray4_Returned in E as (-> & _).
Qed.

(** C4, as the code has it.  From a counter that was just cleared, a call
    that returns leaves in [GetTotalBytesSent]: 4 after [SendValue]; 8 after
    [SendArray] of two values and 16 after [SendArray] of four; after
    [SendVector] of [N] values the number [8 + 4 * N] reduced modulo
    [2 ^ 32], the counter being a [uint32_t], which is [8 + 4 * N] itself
    as long as that is below [2 ^ 32]; and [ClearTotalBytesSent] leaves 0. *)
Theorem counter_after_send (c : Call) (s : Server) (w : World) (r : Result)
  (s' : Server) (w' : World) :
  invoke c (ClearTotalBytesSent s) w = Returned r s' w' ->
  GetTotalBytesSent (ClearTotalBytesSent s') = 0
  /\ match c with
     | CallSendValue _ => GetTotalBytesSent s' = 4
     | CallSendVector vector =>
         GetTotalBytesSent s' = (8 + 4 * Z.of_nat (length vector)) mod 2 ^ 32
         /\ (8 + 4 * Z.of_nat (length vector) < 2 ^ 32 ->
             GetTotalBytesSent s' = 8 + 4 * Z.of_nat (length vector))
     | CallSendArray2 _ => GetTotalBytesSent s' = 8
     | CallSendArray4 _ => GetTotalBytesSent s' = 16
     | _ => GetTotalBytesSent s' = 0
     end.
Proof.
  intros H. split; [reflexivity|].
  destruct (is_send c) eqn:Hc.
  - apply (send_Returned _ _ _ _ _ _ Hc) in H. subst s'.
    destruct c; try discriminate Hc; try reflexivity.
    unfold GetTotalBytesSent, add_bytes_sent, ClearTotalBytesSent, bytes_of.
    cbn [total_bytes_sent_]. rewrite u32_vector_bytes.
    split; [reflexivity|]. intros Hlt. apply Z.mod_small. lia.
  - apply (recv_Returned _ _ _ _ _ _ Hc) in H. subst s'.
    destruct c; try discriminate Hc; reflexivity.
Qed.

Lemma counter_after_send_witness :
  exists r s' w',
    invoke (CallSendVector [1; 2; 3])
           (ClearTotalBytesSent (mkServer 55555 false 3 4 77))
           (Example.world LittleEndian 5 [])
    = Returned r s' w'
    /\ GetTotalBytesSent s' = 20.
Proof.
  eexists _, _, _. split; [vm_compute; reflexivity|].
  exact (proj1 (proj2 (counter_after_send (CallSendVector [1; 2; 3])
           (mkServer 55555 false 3 4 77) (Example.world LittleEndian 5 [])
           _ _ _ ltac:(vm_compute; reflexivity)))).
Defined.

Lemma length_zeros (n : Z) :
  0 <= n -> Z.of_nat (length (Example.zeros n)) = n.
Proof.
  intros H. unfold Example.zeros. rewrite repeat_length. apply Z2Nat.id, H.
Qed.

Lemma is_vector_zeros (n : Z) :
  0 <= n <= max_size -> is_vector (Example.zeros n).
Proof.
  intros H. split; [|rewrite length_zeros; lia].
  unfold Example.zeros.
  induction (Z.to_nat n) as [|k IH]; simpl; constructor; [|exact IH].
  unfold is_u32. lia.
Qed.

Lemma SendVector_unthrottled (vector : list Z) (s : Server) (w : World)
  (limit : Z) :
  unthrottled w (client_fd_ s) limit ->
  8 + u64 (Z.of_nat (length vector) * 4) <= limit ->
  exists w',
    SendVector vector s w
    = Returned tt (add_bytes_sent s (8 + u64 (Z.of_nat (length vector) * 4)))
               w'.
Proof.
  intros Hw Hlim.
  destruct (send_unthrottled (CallSendVector vector) s w limit eq_refl Hw Hlim)
    as (w' & H & _).
  unfold invoke, bind, ret in H.
  destruct (SendVector vector s w) as [[] s1 w1| | |] eqn:E; try discriminate.
  injection H as <- <-. exists w1. reflexivity.
Qed.

Lemma Example_world_unthrottled (o : ByteOrder) (chunk : Z)
  (incoming : list byte) (s : Server) :
  client_fd_ s = 4 ->
  unthrottled (Example.world o chunk incoming) (client_fd_ s) chunk.
Proof.
  intros ->. split; [reflexivity|]. intros n. simpl. lia.
Qed.

(** C4 as stated fails once [8 + 4 * N] reaches [2 ^ 32]: a vector of
    [2 ^ 30 - 2] elements, sent in full from a cleared counter, leaves the
    counter at 0 and not at [8 + 4 * N = 2 ^ 32]. *)
Lemma counter_after_SendVector_wraps :
  is_vector (Example.zeros 1073741822)
  /\ 8 + 4 * Z.of_nat (length (Example.zeros 1073741822)) = 4294967296
  /\ exists s' w',
       SendVector (Example.zeros 1073741822)
                  (ClearTotalBytesSent (Example.server false))
                  (Example.world LittleEndian 4294967296 [])
       = Returned tt s' w'
       /\ GetTotalBytesSent s' = 0.
Proof.
  pose proof (length_zeros 1073741822 ltac:(lia)) as Hlen.
  split; [apply is_vector_zeros; unfold max_size; lia|].
  split; [rewrite Hlen; reflexivity|].
  destruct (SendVector_unthrottled (Example.zeros 1073741822)
              (ClearTotalBytesSent (Example.server false))
              (Example.world LittleEndian 4294967296 []) 4294967296)
    as (w' & H).
  - apply Example_world_unthrottled. reflexivity.
  - rewrite Hlen. reflexivity.
  - eexists _, w'. split; [exact H|].
    rewrite Hlen. reflexivity.
Qed.

(** C9, as the code has it.  Over a sequence of sends that all return, with
    no [ClearTotalBytesSent] in between, the counter is the sum of the byte
    counts modulo [2 ^ 32], and [GetTotalBytesSent] never decreases as long
    as the bytes sent since the start, added to the counter at the start,
    stay below [2 ^ 32]. *)
Theorem counter_monotone_until_wrap (cs : list Call) (s : Server) (w : World)
  (rs : list Z) (s' : Server) (w' : World) :
  Forall (fun c => is_send c = true) cs ->
  run cs s w = Returned rs s' w' ->
  rs = readings cs (GetTotalBytesSent s)
  /\ (0 <= GetTotalBytesSent s ->
      GetTotalBytesSent s + total_bytes cs < 2 ^ 32 ->
      StronglySorted Z.le (GetTotalBytesSent s :: rs)).
Proof.
  intros Hcs H. apply run_readings in H; [|exact Hcs]. subst rs.
  split; [reflexivity|]. apply readings_sorted.
Qed.

Lemma counter_monotone_until_wrap_witness :
  exists rs s' w',
    run [CallSendValue 7; CallSendVector [1; 2; 3]; CallSendArray2 (5, 6);
         CallSendArray4 (1, 2, 3, 4)]
        (Example.server true) (Example.world BigEndian 3 [])
    = Returned rs s' w'
    /\ rs = [4; 24; 32; 48]
    /\ StronglySorted Z.le (0 :: rs).
Proof.
  eexists _, _, _. split; [vm_compute; reflexivity|].
  split; [reflexivity|].
  refine (proj2 (counter_monotone_until_wrap
            [CallSendValue 7; CallSendVector [1; 2; 3]; CallSendArray2 (5, 6);
             CallSendArray4 (1, 2, 3, 4)]
            (Example.server true) (Example.world BigEndian 3 [])
            _ _ _ _ _) _ _).
  - repeat constructor.
  - vm_compute. reflexivity.
  - vm_compute. discriminate.
  - vm_compute. reflexivity.
Defined.

(** C9 as stated fails at the wrap: from a cleared counter, a tuple of four
    and then a vector of [2 ^ 30 - 3] elements, both sent in full, read 16
    and then 12. *)
Lemma counter_decreases_after_wrap :
  Forall (fun c => is_send c = true)
         [CallSendArray4 (0, 0, 0, 0);
          CallSendVector (Example.zeros 1073741821)]
  /\ is_vector (Example.zeros 1073741821)
  /\ (exists s' w',
        run [CallSendArray4 (0, 0, 0, 0);
             CallSendVector (Example.zeros 1073741821)]
            (ClearTotalBytesSent (Example.server false))
            (Example.world LittleEndian 4294967296 [])
        = Returned [16; 12] s' w')
  /\ ~ StronglySorted Z.le [0; 16; 12].
Proof.
  pose proof (length_zeros 1073741821 ltac:(lia)) as Hlen.
  split; [repeat constructor|].
  split; [apply is_vector_zeros; unfold max_size; lia|].
  split.
  - destruct (send_unthrottled (CallSendArray4 (0, 0, 0, 0))
                (ClearTotalBytesSent (Example.server false))
                (Example.world LittleEndian 4294967296 []) 4294967296 eq_refl)
      as (w1 & H1 & Hw1).
    { apply Example_world_unthrottled. reflexivity. }
    { cbn [bytes_of]. lia. }
    destruct (send_unthrottled (CallSendVector (Example.zeros 1073741821))
                (add_bytes_sent (ClearTotalBytesSent (Example.server false))
                   (bytes_of (CallSendArray4 (0, 0, 0, 0))))
                w1 4294967296 eq_refl Hw1)
      as (w2 & H2 & _).
    { cbn [bytes_of]. rewrite Hlen. vm_compute. intros Hgt. discriminate Hgt. }
    cbn [run]. rewrite H1. cbn [bind]. rewrite H2. cbn [bind bytes_of].
    rewrite Hlen. eexists _, _. reflexivity.
  - intros Hs. apply StronglySorted_inv in Hs as [Hs _].
    apply StronglySorted_inv in Hs as [_ Hall].
    apply Forall_inv in Hall. lia.
Qed.

(** * Further properties of the transport *)

(** ** Transfers over a stream that does not fail *)

Lemma live_same_env (w w' : World) (fd : Z) :
  same_env w w' -> live w fd -> live w' fd.
Proof.
  intros (_ & Hfds & Hsched & _) [Hfd Hpos]. split; [congruence|].
  intros n. rewrite Hsched. apply Hpos.
Qed.

Lemma SendLoop_live (fuel : nat) :
  forall (w : World) (fd : Z) (rest : list byte),
  live w fd -> (length rest <= fuel)%nat ->
  exists w', internal.SendLoop fuel w fd rest = (true, w').
Proof.
  induction fuel as [|fuel IH]; intros w fd rest Hlive Hfuel.
  - destruct rest; [|simpl in Hfuel; lia]. eexists. reflexivity.
  - destruct rest as [|b rest]; [eexists; reflexivity|].
    destruct Hlive as [Hfd Hpos]. pose proof (Hpos (syscalls w)) as Hc.
    cbn [internal.SendLoop]. unfold sys_send. rewrite Hfd.
    destruct (Z.leb_spec (sched w (syscalls w)) 0) as [Hle|_]; [lia|].
    set (out := take (Z.to_nat (sched w (syscalls w))) (b :: rest)).
    assert (Hout : (1 <= length out)%nat).
    { unfold out. rewrite length_take. simpl length. lia. }
    destruct (Z.leb_spec (Z.of_nat (length out)) 0) as [Hle|_]; [lia|].
    apply IH.
    + split; [exact Hfd|exact Hpos].
    + rewrite length_drop. simpl length in *. lia.
Qed.

Lemma RecvLoop_live (fuel : nat) :
  forall (w : World) (fd : Z) (want : nat),
  live w fd -> (want <= length (rx w))%nat -> (want <= fuel)%nat ->
  exists got w', internal.RecvLoop fuel w fd want = (true, got, w').
Proof.
  induction fuel as [|fuel IH]; intros w fd want Hlive Hrx Hfuel.
  - destruct want; [|lia]. eexists _, _. reflexivity.
  - destruct want as [|want]; [eexists _, _; reflexivity|].
    destruct Hlive as [Hfd Hpos]. pose proof (Hpos (syscalls w)) as Hc.
    cbn [internal.RecvLoop]. unfold sys_recv. rewrite Hfd.
    destruct (Z.ltb_spec (sched w (syscalls w)) 0) as [Hlt|_]; [lia|].
    set (chunk := take (Nat.min (Z.to_nat (sched w (syscalls w))) (S want))
                       (rx w)).
    assert (Hchunk : (1 <= length chunk <= S want)%nat).
    { unfold chunk. rewrite length_take. lia. }
    destruct (Z.leb_spec (Z.of_nat (length chunk)) 0) as [Hle|_]; [lia|].
    destruct (IH (transferred w [] (drop (length chunk) (rx w))) fd
                 (S want - length chunk)%nat) as (more & w' & Hmore).
    + split; [exact Hfd|exact Hpos].
    + simpl. rewrite length_drop. lia.
    + lia.
    + rewrite Hmore. eexists _, _. reflexivity.
Qed.

Lemma SendData_live (w : World) (fd : Z) (buf : list byte) :
  live w fd ->
  exists w',
    internal.SendData w fd buf = (true, w')
    /\ same_env w w' /\ rx w' = rx w /\ tx w' = tx w ++ buf.
Proof.
  intros Hlive.
  destruct (SendLoop_live (length buf) w fd buf Hlive ltac:(lia)) as [w' H].
  exists w'. split; [exact H|]. apply (SendData_true w fd). exact H.
Qed.

Lemma RecvData_live (w : World) (fd : Z) (buf : list byte) :
  live w fd -> (length buf <= length (rx w))%nat ->
  exists w',
    internal.RecvData w fd buf = (true, take (length buf) (rx w), w')
    /\ same_env w w' /\ tx w' = tx w
    /\ rx w' = drop (length buf) (rx w).
Proof.
  intros Hlive Hrx.
  destruct (RecvLoop_live (length buf) w fd (length buf) Hlive Hrx
              ltac:(lia)) as (got & w' & H).
  assert (HD : exists bytes, internal.RecvData w fd buf = (true, bytes, w')).
  { unfold internal.RecvData. rewrite H. eexists. reflexivity. }
  destruct HD as [bytes HD].
  pose proof (RecvData_true _ _ _ _ _ HD) as (Henv & Htx & Hsplit & Hlen).
  exists w'. rewrite HD, Hsplit, <- Hlen.
  rewrite take_app_length, drop_app_length. auto.
Qed.

Lemma TraceLog_live (msg : string) (values : list Z) (debug : bool)
  (w : World) (fd : Z) :
  live w fd -> live (TraceLog msg values debug w) fd.
Proof. destruct debug; intros H; exact H. Qed.

Lemma TraceLog_byte_order (msg : string) (values : list Z) (debug : bool)
  (w : World) :
  byte_order (TraceLog msg values debug w) = byte_order w.
Proof. destruct debug; reflexivity. Qed.

Ltac finish_call Henv Hlive :=
  eexists; split; [reflexivity|];
  rewrite TraceLog_byte_order;
  match goal with
  | |- context [TraceLog ?m ?v ?d ?w0] =>
      destruct (TraceLog_streams m v d w0) as (-> & -> & _)
  end;
  split; [|split; [|split]];
  [..| apply TraceLog_live, (live_same_env _ _ _ Henv), Hlive
     | apply Henv].

Lemma send_live (c : Call) (s : Server) (w : World) :
  is_send c = true ->
  live w (client_fd_ s) ->
  exists w',
    invoke c s w = Returned NoResult (add_bytes_sent s (bytes_of c)) w'
    /\ tx w' = tx w ++ wire_of (byte_order w) c
    /\ rx w' = rx w
    /\ live w' (client_fd_ s)
    /\ byte_order w' = byte_order w.
Proof.
  intros Hc Hlive. destruct c; try discriminate Hc; clear Hc;
    unfold invoke, bind, ret, bytes_of, wire_of.
  - destruct (SendData_live w (client_fd_ s)
                (object_bytes (byte_order w) 4 value) Hlive)
      as (w1 & H1 & Henv & Hrx & Htx).
    unfold SendValue. rewrite H1. cbn [negb].
    finish_call Henv Hlive; assumption.
  - destruct (SendData_live w (client_fd_ s)
                (object_bytes (byte_order w) 8
                   (u64 (Z.of_nat (length vector) * 4))) Hlive)
      as (w1 & H1 & Henv1 & Hrx1 & Htx1).
    destruct (SendData_live w1 (client_fd_ s)
                (take (Z.to_nat (u64 (Z.of_nat (length vector) * 4)))
                      (data_bytes (byte_order w) vector))
                (live_same_env _ _ _ Henv1 Hlive))
      as (w2 & H2 & Henv2 & Hrx2 & Htx2).
    pose proof (same_env_trans _ _ _ Henv1 Henv2) as Henv.
    unfold SendVector. rewrite H1, H2. cbn [negb andb].
    finish_call Henv Hlive.
    + rewrite Htx2, Htx1, <- app_assoc. reflexivity.
    + congruence.
  - destruct (SendData_live w (client_fd_ s)
                (data_bytes (byte_order w) (array2_elems array)) Hlive)
      as (w1 & H1 & Henv & Hrx & Htx).
    unfold SendArray2. rewrite H1. cbn [negb].
    finish_call Henv Hlive; assumption.
  - destruct (SendData_live w (client_fd_ s)
                (data_bytes (byte_order w) (array4_elems array)) Hlive)
      as (w1 & H1 & Henv & Hrx & Htx).
    unfold SendArray4. rewrite H1. cbn [negb].
    finish_call Henv Hlive; assumption.
Qed.

Lemma data_values_exact (o : ByteOrder) (v : list Z) :
  Forall is_u32 v -> data_values o (length v) (data_bytes o v) = v.
Proof.
  intros H. rewrite <- (app_nil_r (data_bytes o v)).
  now apply data_values_bytes.
Qed.

Lemma RecvData_message (w : World) (fd : Z) (buf msg rest : list byte) :
  live w fd -> length buf = length msg -> rx w = msg ++ rest ->
  exists w',
    internal.RecvData w fd buf = (true, msg, w')
    /\ same_env w w' /\ tx w' = tx w /\ rx w' = rest.
Proof.
  intros Hlive Hlen Hrx.
  destruct (RecvData_live w fd buf Hlive) as (w' & H & Henv & Htx & Hrx').
  { rewrite Hrx, length_app. lia. }
  rewrite Hlen, Hrx, take_app_length in H.
  rewrite Hlen, Hrx, drop_app_length in Hrx'.
  exists w'. auto.
Qed.

Lemma recv_live (send recv : Call) (s : Server) (w : World)
  (rest : list byte) :
  well_typed send ->
  answers send recv ->
  live w (client_fd_ s) ->
  rx w = wire_of (byte_order w) send ++ rest ->
  exists w',
    invoke recv s w = Returned (payload_of send) s w'
    /\ rx w' = rest
    /\ tx w' = tx w
    /\ live w' (client_fd_ s)
    /\ byte_order w' = byte_order w.
Proof.
  intros Hty Hans Hlive Hrx.
  destruct send, recv; try contradiction; clear Hans;
    unfold invoke, bind, ret, wire_of, well_typed, payload_of in *.
  - destruct (RecvData_message w (client_fd_ s)
                (object_bytes (byte_order w) 4 value0)
                (object_bytes (byte_order w) 4 value) rest Hlive
                ltac:(now rewrite !length_object_bytes) Hrx)
      as (w1 & H1 & Henv & Htx & Hrx1).
    unfold RecvValue. rewrite H1. cbn [negb].
    rewrite object_value_u32 by exact Hty.
    finish_call Henv Hlive; assumption.
  - destruct Hty as [Hu32 Hmax].
    rewrite vector_payload, u64_vector_size in Hrx by exact Hmax.
    rewrite <- app_assoc in Hrx.
    destruct (RecvData_message w (client_fd_ s)
                (object_bytes (byte_order w) 8
                   (u64 (size_of_vector vector0 * 4)))
                (object_bytes (byte_order w) 8
                   (4 * Z.of_nat (length vector)))
                (data_bytes (byte_order w) vector ++ rest) Hlive
                ltac:(now rewrite !length_object_bytes) Hrx)
      as (w1 & H1 & Henv1 & Htx1 & Hrx1).
    assert (Hsize : object_value (byte_order w)
                      (object_bytes (byte_order w) 8
                         (4 * Z.of_nat (length vector)))
                    = 4 * Z.of_nat (length vector)).
    { apply object_value_u64. unfold is_u64, max_size in *. lia. }
    assert (Hdiv : 4 * Z.of_nat (length vector) / 4
                   = Z.of_nat (length vector))
      by (rewrite Z.mul_comm, Z.div_mul; lia).
    assert (Hmod : Z.to_nat ((4 * Z.of_nat (length vector)) mod 4) = 0%nat).
    { rewrite Z.mul_comm, Z.mod_mul by lia. reflexivity. }
    assert (Hnull : (Z.of_nat (length vector) =? 0)
                    && (0 <? 4 * Z.of_nat (length vector)) = false).
    { destruct (Z.eqb_spec (Z.of_nat (length vector)) 0) as [->|_];
        reflexivity. }
    destruct (RecvData_message w1 (client_fd_ s)
                (data_bytes (byte_order w) (repeat 0 (length vector))
                 ++ repeat Byte.x00 0)
                (data_bytes (byte_order w) vector) rest
                (live_same_env _ _ _ Henv1 Hlive)
                ltac:(now rewrite length_app, !length_data_bytes,
                        !repeat_length) Hrx1)
      as (w2 & H2 & Henv2 & Htx2 & Hrx2).
    pose proof (same_env_trans _ _ _ Henv1 Henv2) as Henv.
    unfold RecvVector. rewrite H1. cbv zeta. rewrite Hsize, Hdiv.
    destruct (Z.ltb_spec max_size (Z.of_nat (length vector))) as [Hbig|_];
      [lia|].
    rewrite Hnull, Nat2Z.id, Hmod, H2.
    unfold stored. rewrite Hrx1, Hrx2, length_app, length_data_bytes.
    destruct (Z.ltb_spec (4 * Z.of_nat (length vector))
                (Z.of_nat (4 * length vector + length rest)
                 - Z.of_nat (length rest))) as [Hout|_]; [lia|].
    cbn [negb andb]. rewrite repeat_length, data_values_exact by exact Hu32.
    finish_call Henv Hlive; congruence.
  - destruct (RecvData_message w (client_fd_ s)
                (data_bytes (byte_order w) (array2_elems array0))
                (data_bytes (byte_order w) (array2_elems array)) rest Hlive
                ltac:(now rewrite !length_data_bytes;
                      destruct array, array0) Hrx)
      as (w1 & H1 & Henv & Htx & Hrx1).
    unfold RecvArray2. rewrite H1. cbn [negb].
    destruct array as [a0 a1].
    rewrite (data_values_exact _ [a0; a1]) by exact Hty.
    finish_call Henv Hlive; assumption.
  - destruct (RecvData_message w (client_fd_ s)
                (data_bytes (byte_order w) (array4_elems array0))
                (data_bytes (byte_order w) (array4_elems array)) rest Hlive
                ltac:(now rewrite !length_data_bytes;
                      destruct array as [[[? ?] ?] ?],
                               array0 as [[[? ?] ?] ?]) Hrx)
      as (w1 & H1 & Henv & Htx & Hrx1).
    unfold RecvArray4. rewrite H1. cbn [negb].
    destruct array as [[[a0 a1] a2] a3].
    rewrite (data_values_exact _ [a0; a1; a2; a3]) by exact Hty.
    finish_call Henv Hlive; assumption.
Qed.

(** ** Tuples of two and of four *)

Lemma SendArray2_live (array : array2) (s : Server) (w : World) :
  live w (client_fd_ s) ->
  exists w',
    SendArray2 array s w = Returned tt (add_bytes_sent s 8) w'
    /\ tx w' = tx w ++ data_bytes (byte_order w) (array2_elems array).
Proof.
  intros Hlive.
  destruct (send_live (CallSendArray2 array) s w eq_refl Hlive)
    as (w' & H & Htx & _).
  unfold invoke, bind, ret in H.
  destruct (SendArray2 array s w) as [[] s1 w1| | |]; try discriminate H.
  injection H as -> ->. exists w'. split; [reflexivity|exact Htx].
Qed.

Lemma SendArray4_live (array : array4) (s : Server) (w : World) :
  live w (client_fd_ s) ->
  exists w',
    SendArray4 array s w = Returned tt (add_bytes_sent s 16) w'
    /\ tx w' = tx w ++ data_bytes (byte_order w) (array4_elems array).
Proof.
  intros Hlive.
  destruct (send_live (CallSendArray4 array) s w eq_refl Hlive)
    as (w' & H & Htx & _).
  unfold invoke, bind, ret in H.
  destruct (SendArray4 array s w) as [[] s1 w1| | |]; try discriminate H.
  injection H as -> ->. exists w'. split; [reflexivity|exact Htx].
Qed.

Lemma RecvArray2_live (array old : array2) (s : Server) (w : World)
  (rest : list byte) :
  is_array2 array ->
  live w (client_fd_ s) ->
  rx w = data_bytes (byte_order w) (array2_elems array) ++ rest ->
  exists w', RecvArray2 old s w = Returned array s w' /\ rx w' = rest.
Proof.
  intros Hty Hlive Hrx.
  destruct (recv_live (CallSendArray2 array) (CallRecvArray2 old) s w rest
              Hty I Hlive Hrx) as (w' & H & Hrx' & _).
  unfold invoke, bind, ret, payload_of in H.
  destruct (RecvArray2 old s w) as [a s1 w1| | |]; try discriminate H.
  injection H as -> -> ->. exists w'. split; [reflexivity|exact Hrx'].
Qed.

Lemma RecvArray4_live (array old : array4) (s : Server) (w : World)
  (rest : list byte) :
  is_array4 array ->
  live w (client_fd_ s) ->
  rx w = data_bytes (byte_order w) (array4_elems array) ++ rest ->
  exists w', RecvArray4 old s w = Returned array s w' /\ rx w' = rest.
Proof.
  intros Hty Hlive Hrx.
  destruct (recv_live (CallSendArray4 array) (CallRecvArray4 old) s w rest
              Hty I Hlive Hrx) as (w' & H & Hrx' & _).
  unfold invoke, bind, ret, payload_of in H.
  destruct (RecvArray4 old s w) as [a s1 w1| | |]; try discriminate H.
  injection H as -> -> ->. exists w'. split; [reflexivity|exact Hrx'].
Qed.

(** C6.  Over a connection that does not fail, [SendArray] returns and has
    put on the stream the object representations of the elements, first to
    last, and nothing else: exactly 8 bytes for a tuple of two, exactly 16
    bytes for a tuple of four, no count in front.  The matching [RecvArray]
    on a peer of the same byte order whose incoming stream starts with these
    bytes returns the same tuple, whatever its argument held, and has read
    exactly these bytes.  Over any connection, a [SendArray] that returns
    has put exactly these bytes on the stream, and a matching [RecvArray]
    that returns yields the same tuple. *)
Theorem SendArray_RecvArray_roundtrip :
  (forall (array : array2) (sa : Server) (wa : World),
     is_array2 array ->
     let wire := object_bytes (byte_order wa) 4 array.1
                 ++ object_bytes (byte_order wa) 4 array.2 in
     length wire = 8%nat
     /\ (live wa (client_fd_ sa) ->
         exists wa',
           SendArray2 array sa wa = Returned tt (add_bytes_sent sa 8) wa'
           /\ tx wa' = tx wa ++ wire)
     /\ (forall (r : unit) (sa' : Server) (wa' : World),
           SendArray2 array sa wa = Returned r sa' wa' ->
           tx wa' = tx wa ++ wire)
     /\ forall (old : array2) (sb : Server) (wb : World) (rest : list byte),
          byte_order wb = byte_order wa ->
          rx wb = wire ++ rest ->
          (live wb (client_fd_ sb) ->
           exists wb',
             RecvArray2 old sb wb = Returned array sb wb' /\ rx wb' = rest)
          /\ forall (array' : array2) (sb' : Server) (wb' : World),
               RecvArray2 old sb wb = Returned array' sb' wb' ->
               array' = array /\ rx wb' = rest)
  /\ (forall (array : array4) (sa : Server) (wa : World),
        is_array4 array ->
        let wire := object_bytes (byte_order wa) 4 array.1.1.1
                    ++ object_bytes (byte_order wa) 4 array.1.1.2
                    ++ object_bytes (byte_order wa) 4 array.1.2
                    ++ object_bytes (byte_order wa) 4 array.2 in
        length wire = 16%nat
        /\ (live wa (client_fd_ sa) ->
            exists wa',
              SendArray4 array sa wa = Returned tt (add_bytes_sent sa 16) wa'
              /\ tx wa' = tx wa ++ wire)
        /\ (forall (r : unit) (sa' : Server) (wa' : World),
              SendArray4 array sa wa = Returned r sa' wa' ->
              tx wa' = tx wa ++ wire)
        /\ forall (old : array4) (sb : Server) (wb : World)
                  (rest : list byte),
             byte_order wb = byte_order wa ->
             rx wb = wire ++ rest ->
             (live wb (client_fd_ sb) ->
              exists wb',
                RecvArray4 old sb wb = Returned array sb wb'
                /\ rx wb' = rest)
             /\ forall (array' : array4) (sb' : Server) (wb' : World),
                  RecvArray4 old sb wb = Returned array' sb' wb' ->
                  array' = array /\ rx wb' = rest).
Proof.
  split.
  - intros [a0 a1] sa wa Hty wire.
    assert (Hwire : wire = data_bytes (byte_order wa) [a0; a1])
      by (subst wire; simpl; now rewrite app_nil_r).
    clearbody wire. subst wire.
    split; [rewrite length_data_bytes; reflexivity|].
    split; [intros Hlive; exact (SendArray2_live (a0, a1) sa wa Hlive)|].
    split.
    { intros r sa' wa' Hsend.
      apply SendArray2_Returned in Hsend as (_ & Htx & _). exact Htx. }
    intros old sb wb rest Ho Hrx. split.
    + intros Hlive. apply RecvArray2_live; [exact Hty|exact Hlive|].
      rewrite Ho. exact Hrx.
    + intros array' sb' wb' Hrecv.
      apply RecvArray2_Returned in Hrecv
        as (_ & _ & bytes & Hrx' & Hlen & ->).
      rewrite Hrx in Hrx'. rewrite Ho.
      apply app_inj_1 in Hrx' as [<- <-];
        [|rewrite length_data_bytes; simpl; lia].
      split; [|reflexivity].
      rewrite <- (app_nil_r (data_bytes _ _)).
      change 2%nat with (length [a0; a1]).
      rewrite data_values_bytes by exact Hty. reflexivity.
  - intros [[[a0 a1] a2] a3] sa wa Hty wire.
    assert (Hwire : wire = data_bytes (byte_order wa) [a0; a1; a2; a3])
      by (subst wire; simpl; now rewrite app_nil_r).
    clearbody wire. subst wire.
    split; [rewrite length_data_bytes; reflexivity|].
    split;
      [intros Hlive; exact (SendArray4_live (a0, a1, a2, a3) sa wa Hlive)|].
    split.
    { intros r sa' wa' Hsend.
      apply SendArray4_Returned in Hsend as (_ & Htx & _). exact Htx. }
    intros old sb wb rest Ho Hrx. split.
    + intros Hlive. apply RecvArray4_live; [exact Hty|exact Hlive|].
      rewrite Ho. exact Hrx.
    + intros array' sb' wb' Hrecv.
      apply RecvArray4_Returned in Hrecv
        as (_ & _ & bytes & Hrx' & Hlen & ->).
      rewrite Hrx in Hrx'. rewrite Ho.
      apply app_inj_1 in Hrx' as [<- <-];
        [|rewrite length_data_bytes; simpl; lia].
      split; [|reflexivity].
      rewrite <- (app_nil_r (data_bytes _ _)).
      change 4%nat with (length [a0; a1; a2; a3]).
      rewrite data_values_bytes by exact Hty. reflexivity.
Qed.

(** A big-endian pair exchanges a tuple of two over a stream that cuts the
    transfers at five and at three bytes; a little-endian pair exchanges a
    tuple of four. *)
Lemma SendArray_RecvArray_roundtrip_witness :
  (exists wa' wb',
     SendArray2 (1, 256) (Example.server false)
                (Example.world BigEndian 5 [])
     = Returned tt (mkServer 55555 false 3 4 8) wa'
     /\ tx wa' = [x00; x00; x00; x01; x00; x00; x01; x00]%byte
     /\ RecvArray2 (0, 0) (Example.server true)
          (Example.world BigEndian 3
             [x00; x00; x00; x01; x00; x00; x01; x00; x09]%byte)
        = Returned (1, 256) (Example.server true) wb'
     /\ rx wb' = [x09]%byte)
  /\ (exists wa' wb',
        SendArray4 (1, 2, 3, 4294967295) (Example.server false)
                   (Example.world LittleEndian 5 [])
        = Returned tt (mkServer 55555 false 3 4 16) wa'
        /\ tx wa' = [x01; x00; x00; x00; x02; x00; x00; x00;
                     x03; x00; x00; x00; xff; xff; xff; xff]%byte
        /\ RecvArray4 (0, 0, 0, 0) (Example.server true)
             (Example.world LittleEndian 16
                [x01; x00; x00; x00; x02; x00; x00; x00;
                 x03; x00; x00; x00; xff; xff; xff; xff]%byte)
           = Returned (1, 2, 3, 4294967295) (Example.server true) wb'
        /\ rx wb' = []).
Proof.
  assert (Hlive : forall o chunk incoming, 0 < chunk ->
            live (Example.world o chunk incoming) 4).
  { intros o chunk incoming Hchunk. split; [reflexivity|].
    intros n. exact Hchunk. }
  split.
  - destruct (proj1 SendArray_RecvArray_roundtrip (1, 256)
                (Example.server false) (Example.world BigEndian 5 []))
      as (_ & Hsend & _ & Hrecv).
    { repeat constructor; unfold is_u32; simpl; lia. }
    destruct Hsend as (wa' & Hsend & Htx); [apply Hlive; lia|].
    destruct (Hrecv (0, 0) (Example.server true)
                (Example.world BigEndian 3
                   [x00; x00; x00; x01; x00; x00; x01; x00; x09]%byte)
                [x09]%byte eq_refl eq_refl) as [Hret _].
    destruct Hret as (wb' & Hret & Hrx); [apply Hlive; lia|].
    exists wa', wb'.
    split; [exact Hsend|]. split; [exact Htx|].
    split; [exact Hret|exact Hrx].
  - destruct (proj2 SendArray_RecvArray_roundtrip (1, 2, 3, 4294967295)
                (Example.server false) (Example.world LittleEndian 5 []))
      as (_ & Hsend & _ & Hrecv).
    { repeat constructor; unfold is_u32; simpl; lia. }
    destruct Hsend as (wa' & Hsend & Htx); [apply Hlive; lia|].
    destruct (Hrecv (0, 0, 0, 0) (Example.server true)
                (Example.world LittleEndian 16
                   [x01; x00; x00; x00; x02; x00; x00; x00;
                    x03; x00; x00; x00; xff; xff; xff; xff]%byte)
                [] eq_refl eq_refl) as [Hret _].
    destruct Hret as (wb' & Hret & Hrx); [apply Hlive; lia|].
    exists wa', wb'.
    split; [exact Hsend|]. split; [exact Htx|].
    split; [exact Hret|exact Hrx].
Defined.

(** Every send completes on a stream that does not fail, however the
    stream cuts the transfers: the call returns, the counter has grown by
    the size of the message, and the whole message is on the stream. *)
Theorem send_completes (c : Call) (s : Server) (w : World) :
  is_send c = true ->
  live w (client_fd_ s) ->
  exists w',
    invoke c s w = Returned NoResult (add_bytes_sent s (bytes_of c)) w'
    /\ tx w' = tx w ++ wire_of (byte_order w) c
    /\ rx w' = rx w.
Proof.
  intros Hc Hlive.
  destruct (send_live c s w Hc Hlive) as (w' & H & Htx & Hrx & _).
  exists w'. auto.
Qed.

(** A vector of three elements over a stream that takes one byte per
    call. *)
Lemma send_completes_witness :
  exists w',
    invoke (CallSendVector [1; 2; 3]) (Example.server false)
           (Example.world LittleEndian 1 [])
    = Returned NoResult (mkServer 55555 false 3 4 20) w'
    /\ tx w' = [x0c; x00; x00; x00; x00; x00; x00; x00;
                x01; x00; x00; x00; x02; x00; x00; x00;
                x03; x00; x00; x00]%byte.
Proof.
  destruct (send_completes (CallSendVector [1; 2; 3]) (Example.server false)
              (Example.world LittleEndian 1 []) eq_refl)
    as (w' & H & Htx & _).
  - split; [reflexivity|]. intros n. simpl. lia.
  - exists w'. split; [exact H|exact Htx].
Defined.

(** Every receive completes on a stream that does not fail and starts with
    the message of the matching send: the call returns what was sent and has
    taken exactly that message from the stream, however the stream cuts the
    transfers and whatever the argument held before. *)
Theorem recv_completes (send recv : Call) (s : Server) (w : World)
  (rest : list byte) :
  well_typed send ->
  answers send recv ->
  live w (client_fd_ s) ->
  rx w = wire_of (byte_order w) send ++ rest ->
  exists w',
    invoke recv s w = Returned (payload_of send) s w'
    /\ rx w' = rest
    /\ tx w' = tx w.
Proof.
  intros Hty Hans Hlive Hrx.
  destruct (recv_live send recv s w rest Hty Hans Hlive Hrx)
    as (w' & H & Hrx' & Htx & _).
  exists w'. auto.
Qed.

Lemma recv_completes_witness :
  exists w',
    invoke (CallRecvArray4 (9, 9, 9, 9)) (Example.server false)
           (Example.world LittleEndian 3
              [x01; x00; x00; x00; x02; x00; x00; x00;
               x03; x00; x00; x00; xff; xff; xff; xff; x55]%byte)
    = Returned (Array4Result (1, 2, 3, 4294967295)) (Example.server false) w'
    /\ rx w' = [x55]%byte.
Proof.
  destruct (recv_completes (CallSendArray4 (1, 2, 3, 4294967295))
              (CallRecvArray4 (9, 9, 9, 9)) (Example.server false)
              (Example.world LittleEndian 3
                 [x01; x00; x00; x00; x02; x00; x00; x00;
                  x03; x00; x00; x00; xff; xff; xff; xff; x55]%byte)
              [x55]%byte)
    as (w' & H & Hrx & _).
  - repeat constructor; unfold is_u32; simpl; lia.
  - exact I.
  - split; [reflexivity|]. intros n. simpl. lia.
  - reflexivity.
  - exists w'. split; [exact H|exact Hrx].
Defined.

(** ** Sequences of messages *)

Lemma answers_is_send (send recv : Call) :
  answers send recv -> is_send send = true.
Proof.
  destruct send, recv; simpl; intros H; (reflexivity || contradiction).
Qed.

Lemma collect_sends (sends : list Call) :
  forall (s : Server) (w : World),
  Forall (fun c => is_send c = true) sends ->
  live w (client_fd_ s) ->
  exists s' w',
    collect sends s w = Returned (map (fun _ => NoResult) sends) s' w'
    /\ tx w' = tx w ++ wire_of_all (byte_order w) sends
    /\ rx w' = rx w.
Proof.
  induction sends as [|c cs IH]; intros s w Hcs Hlive.
  - exists s, w. simpl. rewrite app_nil_r. auto.
  - inversion Hcs as [|? ? Hc Hcs']; subst.
    destruct (send_live c s w Hc Hlive)
      as (w1 & H1 & Htx1 & Hrx1 & Hlive1 & Ho1).
    destruct (IH (add_bytes_sent s (bytes_of c)) w1 Hcs' Hlive1)
      as (s' & w' & H & Htx & Hrx).
    exists s', w'. cbn [collect wire_of_all map]. rewrite H1. cbn [bind].
    rewrite H. cbn [bind]. split; [reflexivity|].
    rewrite Htx, Htx1, Ho1, <- app_assoc. split; [reflexivity|congruence].
Qed.

Lemma collect_recvs (sends recvs : list Call) :
  Forall2 answers sends recvs ->
  forall (s : Server) (w : World) (rest : list byte),
  Forall well_typed sends ->
  live w (client_fd_ s) ->
  rx w = wire_of_all (byte_order w) sends ++ rest ->
  exists w',
    collect recvs s w = Returned (map payload_of sends) s w'
    /\ rx w' = rest /\ tx w' = tx w.
Proof.
  induction 1 as [|send recv sends recvs Hans _ IH];
    intros s w rest Hty Hlive Hrx.
  - exists w. auto.
  - inversion Hty as [|? ? Hty1 Hty']; subst.
    cbn [wire_of_all] in Hrx. rewrite <- app_assoc in Hrx.
    destruct (recv_live send recv s w _ Hty1 Hans Hlive Hrx)
      as (w1 & H1 & Hrx1 & Htx1 & Hlive1 & Ho1).
    rewrite <- Ho1 in Hrx1.
    destruct (IH s w1 rest Hty' Hlive1 Hrx1) as (w' & H & Hrx' & Htx').
    exists w'. cbn [collect map]. rewrite H1. cbn [bind]. rewrite H.
    cbn [bind]. split; [reflexivity|]. split; [exact Hrx'|congruence].
Qed.

(** Over a connection that does not fail in either direction, any sequence
    of sends is delivered in order: the sender returns from every call, and
    the peer that makes the matching receives in the same order, on a stream
    that starts with what the sender put out, gets the values that were
    sent, call by call, and has read exactly these messages. *)
Theorem stream_delivers_in_order (sends recvs : list Call)
  (sa sb : Server) (wa wb : World) (rest : list byte) :
  Forall well_typed sends ->
  Forall2 answers sends recvs ->
  live wa (client_fd_ sa) ->
  live wb (client_fd_ sb) ->
  byte_order wb = byte_order wa ->
  exists sa' wa' wire,
    collect sends sa wa = Returned (map (fun _ => NoResult) sends) sa' wa'
    /\ tx wa' = tx wa ++ wire
    /\ (rx wb = wire ++ rest ->
        exists wb',
          collect recvs sb wb = Returned (map payload_of sends) sb wb'
          /\ rx wb' = rest).
Proof.
  intros Hty Hans Hla Hlb Ho.
  destruct (collect_sends sends sa wa) as (sa' & wa' & H & Htx & _);
    [|exact Hla|].
  { clear -Hans. induction Hans; constructor; [|assumption].
    eapply answers_is_send; eassumption. }
  exists sa', wa', (wire_of_all (byte_order wa) sends).
  split; [exact H|]. split; [exact Htx|].
  intros Hrx. rewrite <- Ho in Hrx.
  destruct (collect_recvs sends recvs Hans sb wb rest Hty Hlb Hrx)
    as (wb' & H' & Hrx' & _).
  exists wb'. auto.
Qed.

Lemma stream_delivers_in_order_witness :
  exists sb' wb',
    collect [CallRecvValue 0; CallRecvVector []; CallRecvArray2 (0, 0)]
            (Example.server true)
            (Example.world BigEndian 3
               [x00; x00; x00; x07;
                x00; x00; x00; x00; x00; x00; x00; x08;
                x00; x00; x01; x00; x00; x00; x00; x02;
                x00; x00; x00; x05; x00; x00; x00; x06; xee]%byte)
    = Returned [ValueResult 7; VectorResult [256; 2]; Array2Result (5, 6)]
               sb' wb'
    /\ rx wb' = [xee]%byte.
Proof.
  destruct (stream_delivers_in_order
              [CallSendValue 7; CallSendVector [256; 2];
               CallSendArray2 (5, 6)]
              [CallRecvValue 0; CallRecvVector []; CallRecvArray2 (0, 0)]
              (Example.server false) (Example.server true)
              (Example.world BigEndian 5 [])
              (Example.world BigEndian 3
                 [x00; x00; x00; x07;
                  x00; x00; x00; x00; x00; x00; x00; x08;
                  x00; x00; x01; x00; x00; x00; x00; x02;
                  x00; x00; x00; x05; x00; x00; x00; x06; xee]%byte)
              [xee]%byte)
    as (sa' & wa' & wire & Hsend & Htx & Hrecv).
  - repeat constructor; unfold is_u32, max_size; simpl; lia.
  - repeat constructor.
  - split; [reflexivity|]. intros n. simpl. lia.
  - split; [reflexivity|]. intros n. simpl. lia.
  - reflexivity.
  - assert (Hwire : wire = [x00; x00; x00; x07;
                  x00; x00; x00; x00; x00; x00; x00; x08;
                  x00; x00; x01; x00; x00; x00; x00; x02;
                  x00; x00; x00; x05; x00; x00; x00; x06]%byte).
    { vm_compute in Hsend. injection Hsend as _ <-. vm_compute in Htx.
      symmetry. exact Htx. }
    subst wire. destruct (Hrecv eq_refl) as (wb' & H & Hrx).
    exists (Example.server true), wb'. auto.
Defined.

(** ** Scalars between two hosts *)

Lemma le_value_rev_le_bytes_4 (x : Z) :
  le_value (rev (le_bytes 4 x)) = bswap32 x.
Proof.
  unfold bswap32. cbn [le_bytes rev app le_value].
  rewrite !byte_val_of, !Z.div_div by lia.
  change (256 * (256 * 256)) with (2 ^ 24).
  change (256 * 256) with (2 ^ 16).
  change (x / 256) with (x / 2 ^ 8).
  generalize (x mod 256), (x / 2 ^ 8 mod 256), (x / 2 ^ 16 mod 256),
    (x / 2 ^ 24 mod 256).
  intros. lia.
Qed.

Lemma object_value_other_order (o o' : ByteOrder) (x : Z) :
  o' <> o -> object_value o' (object_bytes o 4 x) = bswap32 x.
Proof.
  destruct o, o'; intros Hne; try congruence; simpl.
  - apply le_value_rev_le_bytes_4.
  - apply le_value_rev_le_bytes_4.
Qed.

Lemma scalar_transfer (value old value' : Z) (r : unit)
  (sa sa' sb sb' : Server) (wa wa' wb wb' : World) (wire rest : list byte) :
  SendValue value sa wa = Returned r sa' wa' ->
  tx wa' = tx wa ++ wire ->
  rx wb = wire ++ rest ->
  RecvValue old sb wb = Returned value' sb' wb' ->
  wire = object_bytes (byte_order wa) 4 value
  /\ value' = object_value (byte_order wb) wire
  /\ rx wb' = rest.
Proof.
  intros Hsend Hem Hin Hrecv.
  apply SendValue_Returned in Hsend as (_ & Htx & _).
  rewrite Hem in Htx. apply app_inv_head in Htx. subst wire.
  apply RecvValue_Returned in Hrecv as (_ & _ & bytes & Hrx & Hlen & ->).
  rewrite Hin in Hrx.
  apply app_inj_1 in Hrx as [<- <-];
    [auto|now rewrite length_object_bytes].
Qed.

(** A scalar sent with [SendValue] and received with [RecvValue] on a peer
    with the same byte order arrives unchanged; it takes four bytes of the
    stream, and the receiver has read exactly these. *)
Theorem SendValue_RecvValue_roundtrip (value old value' : Z) (r : unit)
  (sa sa' sb sb' : Server) (wa wa' wb wb' : World) (wire rest : list byte) :
  is_u32 value ->
  byte_order wb = byte_order wa ->
  SendValue value sa wa = Returned r sa' wa' ->
  tx wa' = tx wa ++ wire ->
  rx wb = wire ++ rest ->
  RecvValue old sb wb = Returned value' sb' wb' ->
  value' = value /\ length wire = 4%nat /\ rx wb' = rest.
Proof.
  intros Hu32 Ho Hsend Hem Hin Hrecv.
  destruct (scalar_transfer _ _ _ _ _ _ _ _ _ _ _ _ _ _
              Hsend Hem Hin Hrecv) as (-> & -> & ->).
  rewrite Ho, object_value_u32, length_object_bytes by exact Hu32. auto.
Qed.

Lemma SendValue_RecvValue_roundtrip_witness :
  exists value' sb' wb',
    RecvValue 0 (Example.server false)
      (Example.world BigEndian 3 [xde; xad; xbe; xef; x01]%byte)
    = Returned value' sb' wb'
    /\ value' = 3735928559 /\ rx wb' = [x01]%byte.
Proof.
  assert (Hsend : exists sa' wa',
    SendValue 3735928559 (Example.server false)
              (Example.world BigEndian 1 []) = Returned tt sa' wa'
    /\ tx wa' = tx (Example.world BigEndian 1 [])
                ++ [xde; xad; xbe; xef]%byte).
  { eexists _, _. split; vm_compute; reflexivity. }
  destruct Hsend as (sa' & wa' & Hsend & Hem).
  eexists _, _, _. split; [vm_compute; reflexivity|].
  destruct (SendValue_RecvValue_roundtrip 3735928559 0 _ tt
              (Example.server false) sa' (Example.server false) _
              (Example.world BigEndian 1 []) wa'
              (Example.world BigEndian 3 [xde; xad; xbe; xef; x01]%byte) _
              [xde; xad; xbe; xef]%byte [x01]%byte
              ltac:(unfold is_u32; lia) eq_refl Hsend Hem eq_refl
              ltac:(vm_compute; reflexivity)) as (Hv & _ & Hrx).
  split; [exact Hv|exact Hrx].
Defined.

(** The code converts nothing: between two hosts of different byte order a
    scalar arrives with its four bytes in the opposite order. *)
Theorem scalar_between_byte_orders (value old value' : Z) (r : unit)
  (sa sa' sb sb' : Server) (wa wa' wb wb' : World) (wire rest : list byte) :
  byte_order wb <> byte_order wa ->
  SendValue value sa wa = Returned r sa' wa' ->
  tx wa' = tx wa ++ wire ->
  rx wb = wire ++ rest ->
  RecvValue old sb wb = Returned value' sb' wb' ->
  value' = bswap32 value.
Proof.
  intros Ho Hsend Hem Hin Hrecv.
  destruct (scalar_transfer _ _ _ _ _ _ _ _ _ _ _ _ _ _
              Hsend Hem Hin Hrecv) as (-> & -> & _).
  now apply object_value_other_order.
Qed.

(** The value 1 sent by a little-endian host reads [16777216] on a
    big-endian one. *)
Lemma scalar_between_byte_orders_witness :
  exists value' sb' wb',
    RecvValue 0 (Example.server false)
      (Example.world BigEndian 4 [x01; x00; x00; x00]%byte)
    = Returned value' sb' wb'
    /\ value' = 16777216.
Proof.
  assert (Hsend : exists sa' wa',
    SendValue 1 (Example.server false)
              (Example.world LittleEndian 4 []) = Returned tt sa' wa'
    /\ tx wa' = tx (Example.world LittleEndian 4 [])
                ++ [x01; x00; x00; x00]%byte).
  { eexists _, _. split; vm_compute; reflexivity. }
  destruct Hsend as (sa' & wa' & Hsend & Hem).
  eexists _, _, _. split; [vm_compute; reflexivity|].
  exact (scalar_between_byte_orders 1 0 _ tt
           (Example.server false) sa' (Example.server false) _
           (Example.world LittleEndian 4 []) wa'
           (Example.world BigEndian 4 [x01; x00; x00; x00]%byte) _
           [x01; x00; x00; x00]%byte []
           ltac:(discriminate) Hsend Hem eq_refl
           ltac:(vm_compute; reflexivity)).
Defined.

(** ** What a call leaves alone *)

Lemma TraceLog_env (msg : string) (values : list Z) (debug : bool)
  (w0 w : World) :
  same_env w0 w ->
  fds (TraceLog msg values debug w) = fds w0
  /\ byte_order (TraceLog msg values debug w) = byte_order w0
  /\ sched (TraceLog msg values debug w) = sched w0.
Proof. intros (? & ? & ? & _). destruct debug; simpl; auto. Qed.

Ltac transfer_env :=
  match goal with
  | |- context [internal.SendData ?w ?fd ?buf] =>
      let ok := fresh "ok" in
      let w1 := fresh "w1" in
      let E := fresh "E" in
      let Henv := fresh "Henv" in
      destruct (internal.SendData w fd buf) as [ok w1] eqn:E;
      pose proof (proj1 (SendData_spec _ _ _ _ _ E)) as Henv; clear E
  | |- context [internal.RecvData ?w ?fd ?buf] =>
      let ok := fresh "ok" in
      let bytes := fresh "bytes" in
      let w1 := fresh "w1" in
      let E := fresh "E" in
      let Henv := fresh "Henv" in
      destruct (internal.RecvData w fd buf) as [[ok bytes] w1] eqn:E;
      pose proof (proj1 (RecvData_spec _ _ _ _ _ _ E)) as Henv; clear E
  end.

Ltac trace_env w :=
  match goal with
  | |- context [TraceLog ?m ?v ?d ?w1] =>
      let H := fresh "Henv" in
      assert (H : same_env w w1)
        by first [ assumption | eapply same_env_trans; eassumption ];
      destruct (TraceLog_env m v d w w1 H) as (-> & -> & ->)
  end.

Lemma invoke_outcome (c : Call) (s : Server) (w : World) :
  match invoke c s w with
  | Returned _ s' w' =>
      fds w' = fds w /\ byte_order w' = byte_order w /\ sched w' = sched w
      /\ port_ s' = port_ s /\ debug_ s' = debug_ s
      /\ server_fd_ s' = server_fd_ s /\ client_fd_ s' = client_fd_ s
  | Exited status _ => status = EXIT_FAILURE
  | Thrown _ _ _ | Undefined => True
  end.
Proof.
  destruct c; unfold invoke, bind, ret;
    [ unfold SendValue | unfold RecvValue | unfold SendVector
    | unfold RecvVector, recv_into_null | unfold SendArray2
    | unfold RecvArray2 | unfold SendArray4 | unfold RecvArray4 ];
    unfold fatal; try transfer_env;
    repeat match goal with
           | |- context [if ?b <? ?c then _ else _] =>
               destruct (b <? c); [exact I|]
           | |- context [if ?b && ?c then recv_into_null _ _ else _] =>
               destruct (b && c)
           | |- context [if ?b && ?c then (_, _, _) else _] =>
               destruct (b && c)
           end;
    repeat transfer_env;
    repeat match goal with
           | |- context [if ?b <? ?c then _ else _] =>
               destruct (b <? c); [exact I|]
           end;
    repeat match goal with
           | ok : bool |- _ => destruct ok
           end;
    cbn [negb andb]; try reflexivity;
    trace_env w; repeat split.
Qed.

Lemma invoke_send_inv (c : Call) (s : Server) (w : World) (r : Result)
  (s' : Server) (w' : World) :
  is_send c = true ->
  invoke c s w = Returned r s' w' ->
  s' = add_bytes_sent s (bytes_of c)
  /\ tx w' = tx w ++ wire_of (byte_order w) c
  /\ rx w' = rx w.
Proof.
  intros Hc H. destruct c; try discriminate Hc; clear Hc;
    unfold invoke, bind, ret in H.
  - destruct (SendValue value s w) eqn:E; try discriminate.
    injection H as _ <- <-. apply SendValue_Returned in E. exact E.
  - destruct (SendVector vector s w) eqn:E; try discriminate.
    injection H as _ <- <-. apply SendVector_Returned in E. exact E.
  - destruct (SendArray2 array s w) eqn:E; try discriminate.
    injection H as _ <- <-. apply SendArray2_Returned in E. exact E.
  - destruct (SendArray4 array s w) eqn:E; try discriminate.
    injection H as _ <- <-. apply SendArray4_Returned in E. exact E.
Qed.

Lemma invoke_recv_inv (c : Call) (s : Server) (w : World) (r : Result)
  (s' : Server) (w' : World) :
  is_send c = false ->
  invoke c s w = Returned r s' w' ->
  s' = s /\ tx w' = tx w
  /\ exists taken,
       rx w = taken ++ rx w'
       /\ Z.of_nat (length taken) = bytes_needed c w.
Proof.
  intros Hc H. destruct c; try discriminate Hc; clear Hc;
    unfold invoke, bind, ret in H; unfold bytes_needed.
  - destruct (RecvValue value s w) eqn:E; try discriminate.
    injection H as _ <- <-.
    apply RecvValue_Returned in E as (-> & Htx & bytes & Hrx & Hlen & _).
    split; [reflexivity|]. split; [exact Htx|]. exists bytes.
    split; [exact Hrx|lia].
  - destruct (RecvVector vector s w) eqn:E; try discriminate.
    injection H as _ <- <-.
    apply RecvVector_Returned in E
      as (-> & Htx & size_bytes & payload & Hrx & Hlen & Hplen & _).
    split; [reflexivity|]. split; [exact Htx|].
    exists (size_bytes ++ payload). rewrite <- app_assoc.
    split; [exact Hrx|].
    rewrite Hrx at 1. rewrite take_app_length' by (symmetry; exact Hlen).
    rewrite length_app. lia.
  - destruct (RecvArray2 array s w) eqn:E; try discriminate.
    injection H as _ <- <-.
    apply RecvArray2_Returned in E as (-> & Htx & bytes & Hrx & Hlen & _).
    split; [reflexivity|]. split; [exact Htx|]. exists bytes.
    split; [exact Hrx|lia].
  - destruct (RecvArray4 array s w) eqn:E; try discriminate.
    injection H as _ <- <-.
    apply RecvArray4_Returned in E as (-> & Htx & bytes & Hrx & Hlen & _).
    split; [reflexivity|]. split; [exact Htx|]. exists bytes.
    split; [exact Hrx|lia].
Qed.

(** A codec call that returns has opened and closed nothing and has left
    the port, the debug flag and both descriptors of the object as they
    were.  A send reads nothing from the stream; a receive writes nothing to
    it and leaves the whole object unchanged. *)
Theorem call_keeps_connection (c : Call) (s : Server) (w : World)
  (r : Result) (s' : Server) (w' : World) :
  invoke c s w = Returned r s' w' ->
  fds w' = fds w
  /\ GetPortNumber s' = GetPortNumber s
  /\ debug_ s' = debug_ s
  /\ server_fd_ s' = server_fd_ s
  /\ client_fd_ s' = client_fd_ s
  /\ if is_send c then rx w' = rx w else tx w' = tx w /\ s' = s.
Proof.
  intros H. pose proof (invoke_outcome c s w) as Hout. rewrite H in Hout.
  destruct Hout as (Hfds & _ & _ & Hp & Hd & Hsf & Hcf).
  repeat (split; [assumption|]).
  destruct (is_send c) eqn:Hc.
  - now apply (invoke_send_inv _ _ _ _ _ _ Hc) in H as (_ & _ & ?).
  - now apply (invoke_recv_inv _ _ _ _ _ _ Hc) in H as (? & ? & _).
Qed.

Lemma call_keeps_connection_witness :
  exists r s' w',
    invoke (CallSendArray2 (1, 2)) (Example.server true)
           (Example.world LittleEndian 3 [x07]%byte)
    = Returned r s' w'
    /\ fds w' = fds (Example.world LittleEndian 3 [x07]%byte)
    /\ rx w' = [x07]%byte.
Proof.
  eexists _, _, _. split; [vm_compute; reflexivity|].
  destruct (call_keeps_connection (CallSendArray2 (1, 2))
              (Example.server true)
              (Example.world LittleEndian 3 [x07]%byte) _ _ _
              ltac:(vm_compute; reflexivity))
    as (Hfds & _ & _ & _ & _ & Hrx).
  split; [exact Hfds|exact Hrx].
Defined.

(** ** Streams that end early, descriptors that are not connected *)





Lemma SendData_no_peer (w : World) (fd : Z) (buf : list byte) :
  fds w !! fd <> Some Connected -> (0 < length buf)%nat ->
  (internal.SendData w fd buf).1 = false.
Proof.
  intros Hfd Hlen. destruct buf as [|b buf]; [simpl in Hlen; lia|].
  unfold internal.SendData. cbn [length internal.SendLoop]. unfold sys_send.
  destruct (fds w !! fd) as [[|]|]; try reflexivity. congruence.
Qed.

Lemma RecvData_no_peer (w : World) (fd : Z) (buf : list byte) :
  fds w !! fd <> Some Connected -> (0 < length buf)%nat ->
  (internal.RecvData w fd buf).1.1 = false.
Proof.
  intros Hfd Hlen. unfold internal.RecvData.
  destruct (length buf) as [|n] eqn:E; [lia|].
  cbn [internal.RecvLoop]. unfold sys_recv.
  destruct (fds w !! fd) as [[|]|]; try reflexivity. congruence.
Qed.

Lemma no_peer_no_transfer (c : Call) (s : Server) (w : World) :
  fds w !! client_fd_ s <> Some Connected ->
  transfers_succeed c s w = false.
Proof.
  intros Hfd. destruct c; unfold transfers_succeed; cbv zeta.
  - apply SendData_no_peer; [exact Hfd|]. rewrite length_object_bytes. lia.
  - apply RecvData_no_peer; [exact Hfd|]. rewrite length_object_bytes. lia.
  - rewrite SendData_no_peer; [reflexivity|exact Hfd|].
    rewrite length_object_bytes. lia.
  - rewrite RecvData_no_peer; [|exact Hfd|rewrite length_object_bytes; lia].
    destruct (_ <? _); reflexivity.
  - apply SendData_no_peer; [exact Hfd|].
    rewrite length_data_bytes. destruct array. simpl. lia.
  - apply RecvData_no_peer; [exact Hfd|].
    rewrite length_data_bytes. destruct array. simpl. lia.
  - apply SendData_no_peer; [exact Hfd|].
    rewrite length_data_bytes. destruct array as [[[? ?] ?] ?]. simpl. lia.
  - apply RecvData_no_peer; [exact Hfd|].
    rewrite length_data_bytes. destruct array as [[[? ?] ?] ?]. simpl. lia.
Qed.

Lemma RecvData_no_peer_exact (w : World) (fd : Z) (buf : list byte) :
  fds w !! fd <> Some Connected -> (0 < length buf)%nat ->
  internal.RecvData w fd buf = (false, buf, transferred w [] (rx w)).
Proof.
  intros Hfd Hlen. unfold internal.RecvData.
  destruct (length buf) as [|n] eqn:E; [lia|].
  cbn [internal.RecvLoop]. unfold sys_recv.
  destruct (fds w !! fd) as [[|]|]; try reflexivity. congruence.
Qed.

Lemma RecvVector_no_peer (vector : list Z) (s : Server) (w : World) :
  fds w !! client_fd_ s <> Some Connected ->
  exists w', RecvVector vector s w = Exited EXIT_FAILURE w'.
Proof.
  intros Hfd. unfold RecvVector, fatal.
  rewrite RecvData_no_peer_exact
    by (try exact Hfd; rewrite length_object_bytes; lia).
  assert (Hsize : 0 <= size_of_vector vector <= max_size).
  { unfold size_of_vector, max_size. lia. }
  assert (Hvs : object_value (byte_order w)
                  (object_bytes (byte_order w) 8
                     (u64 (size_of_vector vector * 4)))
                = 4 * size_of_vector vector).
  { unfold u64. rewrite Z.mod_small by (unfold max_size in Hsize; lia).
    rewrite object_value_u64 by (unfold is_u64, max_size in *; lia). lia. }
  rewrite Hvs.
  replace (4 * size_of_vector vector / 4) with (size_of_vector vector)
    by (rewrite Z.mul_comm, Z.div_mul; lia).
  replace ((4 * size_of_vector vector) mod 4) with 0
    by (rewrite Z.mul_comm, Z.mod_mul; lia).
  destruct (Z.ltb_spec max_size (size_of_vector vector)) as [Hbig|_]; [lia|].
  assert (Hnull : (size_of_vector vector =? 0)
                  && (0 <? 4 * size_of_vector vector) = false).
  { destruct (Z.eqb_spec (size_of_vector vector) 0) as [->|_]; reflexivity. }
  rewrite Hnull.
  destruct (Z.to_nat (size_of_vector vector)) as [|n] eqn:En.
  - cbn [repeat data_bytes app]. unfold internal.RecvData.
    change (Z.to_nat 0) with 0%nat.
    cbn [repeat length internal.RecvLoop app drop]. unfold stored.
    rewrite Z.sub_diag.
    destruct (Z.ltb_spec (4 * size_of_vector vector) 0) as [Hout|_]; [lia|].
    cbn [andb negb]. eexists. reflexivity.
  - rewrite RecvData_no_peer_exact.
    + unfold stored. cbn [transferred rx]. rewrite Z.sub_diag.
      destruct (Z.ltb_spec (4 * size_of_vector vector) 0) as [Hout|_];
        [lia|].
      cbn [andb negb]. eexists. reflexivity.
    + exact Hfd.
    + rewrite length_app, length_data_bytes, repeat_length. lia.
Qed.

Lemma no_peer_exits (c : Call) (s : Server) (w : World) :
  fds w !! client_fd_ s <> Some Connected ->
  exists w', invoke c s w = Exited EXIT_FAILURE w'.
Proof.
  intros Hfd.
  assert (Hvec : forall vector, c = CallRecvVector vector ->
            exists w', invoke c s w = Exited EXIT_FAILURE w').
  { intros vector ->.
    destruct (RecvVector_no_peer vector s w Hfd) as [w' H].
    exists w'. unfold invoke, bind. rewrite H. reflexivity. }
  pose proof (transfer_failure_outcome c s w
                (no_peer_no_transfer c s w Hfd)) as Hout.
  destruct (invoke c s w) as [r s' w'|status w'|e s' w'|].
  - contradiction.
  - destruct Hout as [-> _]. exists w'. reflexivity.
  - destruct Hout as [vector Hc]. destruct (Hvec vector Hc) as [w'' H].
    discriminate H.
  - destruct Hout as [vector Hc]. destruct (Hvec vector Hc) as [w'' H].
    discriminate H.
Qed.

(** Every codec call on an object whose [client_fd_] is not a connected
    descriptor (no [Start] yet, a listening descriptor, a closed one) ends
    the process with [EXIT_FAILURE]; an empty vector is no exception. *)
Theorem call_without_peer_is_fatal (c : Call) (s : Server) (w : World) :
  fds w !! client_fd_ s <> Some Connected ->
  exists w', invoke c s w = Exited EXIT_FAILURE w'.
Proof.
  apply no_peer_exits.
Qed.

(** The object sends on the listening descriptor. *)
Lemma call_without_peer_is_fatal_witness :
  exists w',
    invoke (CallSendVector []) (mkServer 55555 false 3 3 0)
           (Example.world LittleEndian 16 [])
    = Exited 1 w'.
Proof.
  apply (call_without_peer_is_fatal (CallSendVector [])
           (mkServer 55555 false 3 3 0) (Example.world LittleEndian 16 [])).
  vm_compute. discriminate.
Defined.

(** After [CloseSocket] the object is unusable: every codec call ends the
    process with [EXIT_FAILURE]. *)
Theorem call_after_close_is_fatal (c : Call) (s : Server) (w : World) :
  exists w', invoke c s (CloseSocket s w) = Exited EXIT_FAILURE w'.
Proof.
  apply no_peer_exits.
  destruct (CloseSocket_closed s w) as [_ ->]. discriminate.
Qed.

(** ** The counter and the bytes on the stream *)

Lemma wire_of_length (o : ByteOrder) (c : Call) :
  is_send c = true -> well_typed c ->
  Z.of_nat (length (wire_of o c)) = bytes_of c.
Proof.
  intros Hc Hty. destruct c; try discriminate Hc; clear Hc;
    unfold wire_of, bytes_of, well_typed in *.
  - rewrite length_object_bytes. reflexivity.
  - destruct Hty as [_ Hmax].
    rewrite vector_payload by exact Hmax.
    rewrite length_app, length_object_bytes, length_data_bytes.
    rewrite u64_vector_size by exact Hmax. lia.
  - rewrite length_data_bytes. destruct array. reflexivity.
  - rewrite length_data_bytes. destruct array as [[[? ?] ?] ?]. reflexivity.
Qed.

Lemma u32_range (x : Z) : is_u32 (u32 x).
Proof. apply Z.mod_pos_bound. lia. Qed.

Lemma u32_add_u32 (x y : Z) : u32 (u32 x + y) = u32 (x + y).
Proof. unfold u32. apply Zplus_mod_idemp_l. Qed.

(** The counter counts what went on the stream: after any sequence of sends
    that all return, [GetTotalBytesSent] has grown, modulo [2 ^ 32], by the
    number of bytes the stream towards the peer has grown. *)
Theorem counter_counts_wire_bytes (cs : list Call) (s : Server) (w : World)
  (rs : list Z) (s' : Server) (w' : World) :
  Forall (fun c => is_send c = true) cs ->
  Forall well_typed cs ->
  is_u32 (GetTotalBytesSent s) ->
  run cs s w = Returned rs s' w' ->
  GetTotalBytesSent s'
  = u32 (GetTotalBytesSent s
         + (Z.of_nat (length (tx w')) - Z.of_nat (length (tx w)))).
Proof.
  revert s w rs s' w'.
  induction cs as [|c cs IH]; intros s w rs s' w' Hcs Hty Hs H.
  - injection H as _ <- <-. rewrite Z.sub_diag, Z.add_0_r.
    symmetry. apply Z.mod_small. exact Hs.
  - inversion Hcs as [|? ? Hc Hcs']; subst.
    inversion Hty as [|? ? Hty1 Hty']; subst.
    cbn [run] in H. unfold bind in H.
    destruct (invoke c s w) as [r s1 w1| | |] eqn:E; try discriminate.
    destruct (run cs s1 w1) as [rs1 s2 w2| | |] eqn:E'; try discriminate.
    injection H as _ <- <-.
    apply (invoke_send_inv _ _ _ _ _ _ Hc) in E as (-> & Htx & _).
    apply IH in E'; [|assumption|assumption|apply u32_range].
    rewrite E'. unfold GetTotalBytesSent, add_bytes_sent.
    cbn [total_bytes_sent_]. rewrite u32_add_u32.
    rewrite Htx, length_app, Nat2Z.inj_add.
    rewrite (wire_of_length _ _ Hc Hty1). f_equal. lia.
Qed.

Lemma counter_counts_wire_bytes_witness :
  exists rs s' w',
    run [CallSendValue 7; CallSendVector [1; 2; 3]]
        (mkServer 55555 false 3 4 4294967290)
        (Example.world LittleEndian 7 [])
    = Returned rs s' w'
    /\ Z.of_nat (length (tx w')) = 24
    /\ GetTotalBytesSent s' = 18.
Proof.
  eexists _, _, _. split; [vm_compute; reflexivity|].
  split; [reflexivity|].
  etransitivity;
    [eapply (counter_counts_wire_bytes
               [CallSendValue 7; CallSendVector [1; 2; 3]]
               (mkServer 55555 false 3 4 4294967290)
               (Example.world LittleEndian 7 []))|].
  - repeat constructor.
  - repeat constructor; unfold is_u32, max_size; simpl; lia.
  - unfold is_u32. simpl. lia.
  - vm_compute. reflexivity.
  - vm_compute. reflexivity.
Defined.

(** ** Descriptors the operating system hands out *)

Lemma is_open_spec (h : Host) (fd : Z) :
  is_open h fd = true
  <-> fd ∈ others h ∪ dom (fds (env h)) ∪ dom (embryos h).
Proof.
  unfold is_open. rewrite orb_true_iff, bool_decide_eq_true.
  rewrite !elem_of_union, !elem_of_dom.
  destruct (fds (env h) !! fd) as [k|], (embryos h !! fd) as [b|];
    split; intros H; try (right; reflexivity);
    try (left; right; eexists; reflexivity);
    try (right; eexists; reflexivity).
  - destruct H as [H|H]; [left; left; exact H|discriminate].
  - destruct H as [[H|[? H]]|[? H]]; [left; exact H|discriminate..].
Qed.

Lemma first_free_spec (open : Z -> bool) (X : gset Z) :
  (forall k, open k = true <-> k ∈ X) ->
  forall (fuel : nat) (fd : Z),
  (size (filter (fun k : Z => (fd <= k)%Z) X) <= fuel)%nat ->
  open (first_free open fuel fd) = false
  /\ fd <= first_free open fuel fd
  /\ forall k, fd <= k < first_free open fuel fd -> open k = true.
Proof.
  intros Hopen. induction fuel as [|fuel IH]; intros fd Hsize.
  - cbn [first_free]. split; [|split; [lia|intros; lia]].
    destruct (open fd) eqn:E; [|reflexivity].
    apply Hopen in E.
    assert (Hin : fd ∈ filter (fun k : Z => (fd <= k)%Z) X)
      by (apply elem_of_filter; split; [lia|exact E]).
    assert (Hemp : filter (fun k : Z => (fd <= k)%Z) X ≡ ∅)
      by (apply size_empty_iff; lia).
    rewrite Hemp in Hin. set_solver.
  - cbn [first_free]. destruct (open fd) eqn:E;
      [|split; [exact E|split; [lia|intros; lia]]].
    assert (HX : fd ∈ X) by (apply Hopen, E).
    destruct (IH (fd + 1)) as (Hfree & Hle & Hbelow).
    { assert (Hsub : filter (fun k : Z => (fd + 1 <= k)%Z) X
                     ⊂ filter (fun k : Z => (fd <= k)%Z) X).
      { split.
        - intros k Hk. apply elem_of_filter in Hk as [Hk1 Hk2].
          apply elem_of_filter. split; [lia|exact Hk2].
        - intros Hsup. specialize (Hsup fd).
          rewrite !elem_of_filter in Hsup.
          destruct Hsup as [Hbad _]; [split; [lia|exact HX]|lia]. }
      apply subset_size in Hsub. lia. }
    split; [exact Hfree|]. split; [lia|].
    intros k Hk. destruct (decide (k = fd)) as [->|Hne]; [exact E|].
    apply Hbelow. lia.
Qed.

Lemma size_union_le (X Y : gset Z) : (size (X ∪ Y) <= size X + size Y)%nat.
Proof.
  rewrite size_union_alt. apply Nat.add_le_mono; [reflexivity|].
  apply subseteq_size. intros k Hk. apply elem_of_difference in Hk as [Hk _].
  exact Hk.
Qed.

Lemma lowest_free_spec (h : Host) :
  is_open h (lowest_free h) = false
  /\ 0 <= lowest_free h
  /\ forall k, 0 <= k < lowest_free h -> is_open h k = true.
Proof.
  unfold lowest_free.
  apply (first_free_spec (is_open h)
           (others h ∪ dom (fds (env h)) ∪ dom (embryos h))
           (is_open_spec h)).
  etransitivity.
  { apply subseteq_size. intros k Hk.
    apply elem_of_filter in Hk as [_ Hk]. exact Hk. }
  etransitivity; [apply size_union_le|].
  apply Nat.add_le_mono; [|reflexivity]. apply size_union_le.
Qed.

Lemma is_open_false (h : Host) (fd : Z) :
  is_open h fd = false ->
  fds (env h) !! fd = None /\ embryos h !! fd = None /\ fd ∉ others h.
Proof.
  unfold is_open. intros H. apply orb_false_iff in H as [Ho H].
  apply bool_decide_eq_false in Ho.
  destruct (fds (env h) !! fd), (embryos h !! fd); try discriminate. auto.
Qed.

Lemma port_taken_spec (h : Host) (port : Z) :
  port_taken h port = true
  <-> port ∈ busy h
      \/ (exists fd, listening h !! fd = Some port
                     /\ fds (env h) !! fd = Some Listening)
      \/ (exists fd, embryos h !! fd = Some (Some port)).
Proof.
  unfold port_taken.
  rewrite !orb_true_iff, bool_decide_eq_true, !existsb_exists.
  split.
  - intros [[H|([fd p] & Hin & H)]|([fd b] & Hin & H)].
    + left. exact H.
    + right. left. apply list_elem_of_In, elem_of_map_to_list in Hin.
      apply andb_true_iff in H as [Hp Hk]. apply Z.eqb_eq in Hp. subst p.
      exists fd. split; [exact Hin|].
      destruct (fds (env h) !! fd) as [[|]|]; (reflexivity || discriminate).
    + right. right. apply list_elem_of_In, elem_of_map_to_list in Hin.
      destruct b as [p|]; [|discriminate]. apply Z.eqb_eq in H. subst p.
      exists fd. exact Hin.
  - intros [H|[(fd & Hl & Hk)|(fd & He)]].
    + left. left. exact H.
    + left. right. exists (fd, port). split.
      * apply list_elem_of_In, elem_of_map_to_list. exact Hl.
      * rewrite Hk, Z.eqb_refl. reflexivity.
    + right. exists (fd, Some port). split.
      * apply list_elem_of_In, elem_of_map_to_list. exact He.
      * apply Z.eqb_refl.
Qed.

Lemma port_taken_fresh_socket (h : Host) (fd port : Z) :
  embryos h !! fd = None ->
  port_taken (with_embryos h (<[fd := None]> (embryos h))) port
  = port_taken h port.
Proof.
  intros Hfd. apply Bool.eq_iff_eq_true. rewrite !port_taken_spec. simpl.
  split; (intros [H|[H|(fd' & H)]]; [left; exact H|right; left; exact H|]).
  - right. right. exists fd'.
    destruct (decide (fd = fd')) as [<-|Hne].
    + rewrite lookup_insert_eq in H. discriminate.
    + rewrite lookup_insert_ne in H by exact Hne. exact H.
  - right. right. exists fd'.
    destruct (decide (fd = fd')) as [<-|Hne]; [congruence|].
    rewrite lookup_insert_ne by exact Hne. exact H.
Qed.

(** ** [Setup] *)

(** What [Setup] does, by cases on the descriptor limit and the port. *)
Lemma any_port_fresh_socket (h : Host) (fd : Z) :
  embryos h !! fd = None ->
  any_port (with_embryos h (<[fd := None]> (embryos h))) = any_port h.
Proof.
  intros Hemb. unfold any_port.
  change (ephemeral (with_embryos h (<[fd := None]> (embryos h))))
    with (ephemeral h).
  induction (ephemeral h) as [|p l IH]; [reflexivity|].
  cbn [find]. rewrite IH, port_taken_fresh_socket by exact Hemb.
  reflexivity.
Qed.

Lemma bound_port_fresh_socket (h : Host) (fd port : Z) :
  embryos h !! fd = None ->
  bound_port (with_embryos h (<[fd := None]> (embryos h))) port
  = bound_port h port.
Proof.
  intros Hemb. unfold bound_port.
  rewrite any_port_fresh_socket, port_taken_fresh_socket by exact Hemb.
  reflexivity.
Qed.

(** The port [bind] gives is a port number other than 0 that nobody holds:
    the one asked for, or for port 0 one of the candidates. *)
Lemma bound_port_spec (h : Host) (port p : Z) :
  0 <= port < 2 ^ 16 ->
  bound_port h port = Some p ->
  0 < p < 2 ^ 16
  /\ port_taken h p = false
  /\ (port <> 0 -> p = port)
  /\ (port = 0 -> In p (ephemeral h)).
Proof.
  intros Hport. unfold bound_port, any_port.
  destruct (Z.eqb_spec port 0) as [->|Hne].
  - intros H. apply find_some in H as [Hin H].
    apply andb_prop in H as [H Hfree]. apply andb_prop in H as [Hlo Hhi].
    apply Z.ltb_lt in Hlo, Hhi. apply negb_true_iff in Hfree.
    split; [lia|]. split; [exact Hfree|]. split; [congruence|auto].
  - destruct (port_taken h port) eqn:Htaken; [discriminate|].
    intros [= <-]. split; [lia|]. split; [exact Htaken|].
    split; [auto|contradiction].
Qed.

(** What [Setup] does, by cases on the descriptor limit and the port. *)
Lemma Setup_cases (s : Server) (h : Host) :
  Setup s h
  = if lowest_free h <? nofile h then
      match bound_port h (htons (port_ s)) with
      | Some p =>
          Ready (set_server_fd s (lowest_free h))
            (mkHost
               (TraceLog "Server listening on port " [port_ s] (debug_ s)
                  (with_fds (env h)
                     (<[lowest_free h := Listening]> (fds (env h)))))
               (embryos h)
               (<[lowest_free h := p]> (listening h))
               (others h) (busy h) (nofile h) (pending h) (stderr h)
               (ephemeral h))
      | None =>
          Halted EXIT_FAILURE
            (mkHost (FatalLog "Failed to bind socket" (env h))
                    (<[lowest_free h := None]> (embryos h))
                    (listening h) (others h) (busy h) (nofile h) (pending h)
                    (stderr h) (ephemeral h))
      end
    else Halted EXIT_FAILURE (perror "socket failed" h).
Proof.
  destruct (lowest_free_spec h) as (Hfree & Hnn & _).
  apply is_open_false in Hfree as (Hfds & Hemb & _).
  unfold Setup, sys_socket.
  destruct (Z.ltb_spec (lowest_free h) (nofile h)) as [Hlt|Hge];
    [|reflexivity].
  cbn [set_server_fd server_fd_ port_ debug_].
  destruct (Z.ltb_spec (lowest_free h) 0) as [Hneg|_]; [lia|].
  unfold sys_setsockopt. cbn [with_embryos env embryos].
  rewrite Hfds, lookup_insert_eq. cbn [Z.ltb Z.compare].
  unfold sys_bind.
  pose proof (bound_port_fresh_socket h (lowest_free h) (htons (port_ s))
                Hemb) as Hbound.
  rewrite Hbound. cbn [with_embryos embryos]. rewrite lookup_insert_eq.
  destruct (bound_port h (htons (port_ s))) as [p|]; [|reflexivity].
  cbn [Z.ltb Z.compare]. unfold sys_listen. cbn [with_embryos embryos].
  rewrite lookup_insert_eq. cbn [Z.ltb Z.compare].
  rewrite insert_insert_eq, delete_insert_id by exact Hemb. reflexivity.
Qed.

(** After a [Setup] that returns, [server_fd_] is the lowest descriptor that
    was free, below the limit; it listens, and it is the one change in the
    descriptor table.  The port it listens on is a port number other than 0
    that nobody held: the port [port_] reduced modulo [2 ^ 16] by [htons]
    when that is not 0, and otherwise a port the operating system chose,
    while [port_] stays as it was.  The rest of the object is as it was. *)
Theorem Setup_ready (s : Server) (h : Host) (s' : Server) (h' : Host) :
  Setup s h = Ready s' h' ->
  0 <= server_fd_ s' < nofile h
  /\ is_open h (server_fd_ s') = false
  /\ (forall k, 0 <= k < server_fd_ s' -> is_open h k = true)
  /\ fds (env h') = <[server_fd_ s' := Listening]> (fds (env h))
  /\ (exists p,
        listening h' !! server_fd_ s' = Some p
        /\ 0 < p < 65536
        /\ port_taken h p = false
        /\ (GetPortNumber s mod 65536 <> 0 -> p = GetPortNumber s mod 65536)
        /\ (GetPortNumber s mod 65536 = 0 -> In p (ephemeral h)))
  /\ embryos h' = embryos h
  /\ GetPortNumber s' = GetPortNumber s
  /\ client_fd_ s' = client_fd_ s
  /\ GetTotalBytesSent s' = GetTotalBytesSent s.
Proof.
  rewrite Setup_cases. intros H.
  destruct (lowest_free_spec h) as (Hfree & Hnn & Hbelow).
  destruct (Z.ltb_spec (lowest_free h) (nofile h)) as [Hlt|_];
    [|discriminate].
  destruct (bound_port h (htons (port_ s))) as [p|] eqn:Hbound;
    [|discriminate].
  injection H as <- <-. cbn [set_server_fd server_fd_ env listening embryos].
  split; [lia|]. split; [exact Hfree|]. split; [exact Hbelow|].
  split.
  { destruct (TraceLog_streams "Server listening on port " [port_ s]
                (debug_ s)
                (with_fds (env h)
                   (<[lowest_free h := Listening]> (fds (env h)))))
      as (_ & _ & ->). reflexivity. }
  split.
  { exists p. split; [apply lookup_insert_eq|].
    apply bound_port_spec in Hbound;
      [|unfold htons; apply Z.mod_pos_bound; lia].
    exact Hbound. }
  repeat split.
Qed.

(** Port 70000 on a process with descriptors 0 to 2 open: descriptor 3
    listens on port 4464.  Port 65536 asks for any port: of the candidates
    8080, 32768 and 32769 the first is held, and descriptor 3 listens on
    port 32768 while [GetPortNumber] still answers 65536. *)
Lemma Setup_ready_witness :
  (exists s' h',
     Setup (Scenario.fresh 70000 false) (Scenario.host LittleEndian 5 1)
     = Ready s' h'
     /\ server_fd_ s' = 3
     /\ listening h' !! 3 = Some 4464)
  /\ (exists s' h',
        Setup (Scenario.fresh 65536 false) (Scenario.host LittleEndian 5 1)
        = Ready s' h'
        /\ listening h' !! 3 = Some 32768
        /\ GetPortNumber s' = 65536).
Proof.
  split.
  - assert (H : exists s' h',
      Setup (Scenario.fresh 70000 false) (Scenario.host LittleEndian 5 1)
      = Ready s' h' /\ server_fd_ s' = 3).
    { eexists _, _. split; [vm_compute; reflexivity|reflexivity]. }
    destruct H as (s' & h' & H & Hfd). exists s', h'.
    split; [exact H|]. split; [exact Hfd|].
    destruct (Setup_ready _ _ _ _ H)
      as (_ & _ & _ & _ & (p & Hp & _ & _ & Hport & _) & _).
    rewrite Hfd in Hp. rewrite Hp, Hport; [reflexivity|].
    vm_compute. discriminate.
  - assert (H : exists s' h',
      Setup (Scenario.fresh 65536 false) (Scenario.host LittleEndian 5 1)
      = Ready s' h' /\ server_fd_ s' = 3
      /\ listening h' !! 3 = Some 32768).
    { eexists _, _. split; [vm_compute; reflexivity|].
      split; reflexivity. }
    destruct H as (s' & h' & H & Hfd & Hp). exists s', h'.
    split; [exact H|]. split; [exact Hp|].
    destruct (Setup_ready _ _ _ _ H) as (_ & _ & _ & _ & _ & _ & Hport & _).
    rewrite Hport. reflexivity.
Defined.

(** A [Setup] that fails ends the process with [EXIT_FAILURE] and closes
    nothing.  When [socket] fails the message goes to the standard error
    stream and the log stays as it is; when a later step fails the log gets
    one fatal record, and the socket [Setup] made is still open when the
    process exits. *)
Theorem Setup_fails_without_cleanup (s : Server) (h : Host) (status : Z)
  (h' : Host) :
  Setup s h = Halted status h' ->
  status = EXIT_FAILURE
  /\ fds (env h') = fds (env h)
  /\ (forall fd, is_open h fd = true -> is_open h' fd = true)
  /\ ((nofile h <= lowest_free h
       /\ stderr h' = stderr h ++ ["socket failed"%string]
       /\ log (env h') = log (env h))
      \/ (is_open h (lowest_free h) = false
          /\ is_open h' (lowest_free h) = true
          /\ stderr h' = stderr h
          /\ exists msg, log (env h') = log (env h) ++ [Fatal msg])).
Proof.
  rewrite Setup_cases. intros H.
  destruct (lowest_free_spec h) as (Hfree & _ & _).
  destruct (Z.ltb_spec (lowest_free h) (nofile h)) as [Hlt|Hge].
  - destruct (bound_port h (htons (port_ s))); [discriminate|].
    injection H as <- <-. split; [reflexivity|]. split; [reflexivity|].
    split.
    + intros fd. unfold is_open. cbn [env embryos others FatalLog with_log fds].
      destruct (bool_decide (fd ∈ others h)); [reflexivity|]. cbn [orb].
      destruct (decide (lowest_free h = fd)) as [->|Hne].
      * rewrite lookup_insert_eq. destruct (fds (env h) !! fd); reflexivity.
      * rewrite lookup_insert_ne by exact Hne. auto.
    + right. split; [exact Hfree|]. split.
      * unfold is_open. cbn [embryos]. rewrite lookup_insert_eq.
        destruct (fds _ !! _); apply orb_true_r.
      * split; [reflexivity|]. eexists. reflexivity.
  - injection H as <- <-. split; [reflexivity|]. split; [reflexivity|].
    split; [auto|]. left. repeat split. exact Hge.
Qed.

(** Port 8080 is held by another process. *)
Lemma Setup_fails_without_cleanup_witness :
  exists h',
    Setup (Scenario.fresh 8080 true) (Scenario.host LittleEndian 5 1)
    = Halted 1 h'
    /\ is_open h' 3 = true
    /\ log (env h') = [Fatal "Failed to bind socket"].
Proof.
  eexists. split; [vm_compute; reflexivity|].
  destruct (Setup_fails_without_cleanup (Scenario.fresh 8080 true)
              (Scenario.host LittleEndian 5 1) _ _
              ltac:(vm_compute; reflexivity))
    as (_ & _ & _ & [(Hbad & _)|(_ & Hopen & _)]).
  - vm_compute in Hbad. contradiction Hbad. reflexivity.
  - split; [exact Hopen|reflexivity].
Defined.

(** A second [Setup] on the same object never returns when the port is not
    0: the first listening socket holds the port, so [bind] fails, or no
    descriptor is left, and the process ends. *)
Theorem Setup_twice_is_fatal (s : Server) (h : Host) (s1 : Server)
  (h1 : Host) :
  Setup s h = Ready s1 h1 ->
  GetPortNumber s mod 65536 <> 0 ->
  exists h2, Setup s1 h1 = Halted EXIT_FAILURE h2.
Proof.
  intros H Hport. unfold GetPortNumber in Hport.
  change (port_ s mod 65536) with (htons (port_ s)) in Hport.
  rewrite Setup_cases in H.
  destruct (Z.ltb_spec (lowest_free h) (nofile h)) as [Hlt|_];
    [|discriminate].
  destruct (bound_port h (htons (port_ s))) as [p|] eqn:Hbound;
    [|discriminate].
  injection H as <- <-. rewrite Setup_cases.
  cbn [set_server_fd port_].
  assert (Hp : p = htons (port_ s)).
  { apply bound_port_spec in Hbound as (_ & _ & Hp & _);
      [auto|unfold htons; apply Z.mod_pos_bound; lia]. }
  subst p. unfold bound_port at 1.
  destruct (Z.eqb_spec (htons (port_ s)) 0) as [H0|_]; [contradiction|].
  match goal with
  | |- context [port_taken ?h1 ?p] =>
      assert (Htaken : port_taken h1 p = true)
  end.
  { apply port_taken_spec. right. left. exists (lowest_free h).
    cbn [listening env]. rewrite lookup_insert_eq. split; [reflexivity|].
    destruct (TraceLog_streams "Server listening on port " [port_ s]
                (debug_ s)
                (with_fds (env h)
                   (<[lowest_free h := Listening]> (fds (env h)))))
      as (_ & _ & ->).
    apply lookup_insert_eq. }
  rewrite Htaken.
  match goal with
  | |- context [if ?b then _ else _] => destruct b
  end; eexists; reflexivity.
Qed.

Lemma Setup_twice_is_fatal_witness :
  exists s1 h1 h2,
    Setup (Scenario.fresh 9000 false) (Scenario.host BigEndian 5 0)
    = Ready s1 h1
    /\ Setup s1 h1 = Halted 1 h2.
Proof.
  assert (H : exists s1 h1,
    Setup (Scenario.fresh 9000 false) (Scenario.host BigEndian 5 0)
    = Ready s1 h1) by (eexists _, _; vm_compute; reflexivity).
  destruct H as (s1 & h1 & H).
  destruct (Setup_twice_is_fatal _ _ _ _ H ltac:(vm_compute; discriminate))
    as [h2 H2].
  exists s1, h1, h2. auto.
Defined.

(** ** [Start] *)

Lemma Start_cases (s : Server) (h : Host) :
  Start s h
  = match fds (env h) !! server_fd_ s with
    | Some Listening =>
        match pending h with
        | O => Waiting h
        | S waiting =>
            if lowest_free h <? nofile h then
              Ready (set_client_fd s (lowest_free h))
                (mkHost
                   (TraceLog "Client connected" [] (debug_ s)
                      (with_fds (env h)
                         (<[lowest_free h := Connected]> (fds (env h)))))
                   (embryos h) (listening h) (others h) (busy h) (nofile h)
                   waiting (stderr h) (ephemeral h))
            else
              Halted EXIT_FAILURE
                (with_env h (FatalLog "Failed to accept client" (env h)))
        end
    | _ =>
        Halted EXIT_FAILURE
          (with_env h (FatalLog "Failed to accept client" (env h)))
    end.
Proof.
  destruct (lowest_free_spec h) as (_ & Hnn & _).
  unfold Start, sys_accept.
  destruct (fds (env h) !! server_fd_ s) as [[|]|]; try reflexivity.
  destruct (pending h); [reflexivity|].
  destruct (Z.ltb_spec (lowest_free h) (nofile h)) as [Hlt|Hge];
    [|reflexivity].
  cbn [set_client_fd client_fd_ debug_].
  destruct (Z.ltb_spec (lowest_free h) 0) as [Hneg|_]; [lia|]. reflexivity.
Qed.

(** After a [Start] that returns, [server_fd_] was listening and still is
    the same descriptor, one waiting peer was taken, and [client_fd_] is the
    lowest descriptor that was free (it was not open, and every number
    below it was): it is connected, it differs from [server_fd_], and it is
    the one change in the descriptor table.  On a
    stream that does not fail the object is then ready for transfers. *)
Theorem Start_ready (s : Server) (h : Host) (s' : Server) (h' : Host) :
  Start s h = Ready s' h' ->
  fds (env h) !! server_fd_ s = Some Listening
  /\ pending h = S (pending h')
  /\ 0 <= client_fd_ s' < nofile h
  /\ is_open h (client_fd_ s') = false
  /\ (forall k, 0 <= k < client_fd_ s' -> is_open h k = true)
  /\ fds (env h') = <[client_fd_ s' := Connected]> (fds (env h))
  /\ client_fd_ s' <> server_fd_ s'
  /\ server_fd_ s' = server_fd_ s
  /\ GetTotalBytesSent s' = GetTotalBytesSent s
  /\ ((forall n, 0 < sched (env h) n) -> live (env h') (client_fd_ s')).
Proof.
  rewrite Start_cases. intros H.
  destruct (lowest_free_spec h) as (Hfree & Hnn & Hbelow).
  destruct (fds (env h) !! server_fd_ s) as [[|]|] eqn:Hs; try discriminate.
  destruct (pending h) as [|waiting]; [discriminate|].
  destruct (Z.ltb_spec (lowest_free h) (nofile h)) as [Hlt|_];
    [|discriminate].
  injection H as <- <-.
  cbn [set_client_fd client_fd_ server_fd_ env pending].
  assert (Hfds : fds (TraceLog "Client connected" [] (debug_ s)
                        (with_fds (env h)
                           (<[lowest_free h := Connected]> (fds (env h)))))
                 = <[lowest_free h := Connected]> (fds (env h))).
  { destruct (debug_ s); reflexivity. }
  split; [reflexivity|]. split; [reflexivity|]. split; [lia|].
  split; [exact Hfree|]. split; [exact Hbelow|]. split; [exact Hfds|].
  split.
  { intros Heq. apply is_open_false in Hfree as (Hnone & _).
    rewrite Heq in Hnone. congruence. }
  split; [reflexivity|]. split; [reflexivity|].
  intros Hpos. split.
  - rewrite Hfds. apply lookup_insert_eq.
  - intros n. destruct (debug_ s); apply Hpos.
Qed.

Lemma Start_ready_witness :
  exists s' h',
    Start (mkServer 9000 true 3 (-1) 0)
          (mkHost (Example.world LittleEndian 5 []) ∅ ∅ {[ 0; 1; 2 ]} ∅
                  1024 1 [] [])
    = Ready s' h'
    /\ client_fd_ s' = 5
    /\ fds (env h') !! 5 = Some Connected
    /\ is_open (mkHost (Example.world LittleEndian 5 []) ∅ ∅ {[ 0; 1; 2 ]} ∅
                       1024 1 [] []) 4 = true.
Proof.
  assert (H : exists s' h',
    Start (mkServer 9000 true 3 (-1) 0)
          (mkHost (Example.world LittleEndian 5 []) ∅ ∅ {[ 0; 1; 2 ]} ∅
                  1024 1 [] [])
    = Ready s' h' /\ client_fd_ s' = 5).
  { eexists _, _. split; [vm_compute; reflexivity|reflexivity]. }
  destruct H as (s' & h' & H & Hfd). exists s', h'.
  split; [exact H|]. split; [exact Hfd|].
  destruct (Start_ready _ _ _ _ H) as (_ & _ & _ & _ & Hbelow & Hfds & _).
  split; [rewrite Hfds, Hfd; apply lookup_insert_eq|].
  apply Hbelow. rewrite Hfd. lia.
Defined.

(** [Start] on an object whose [server_fd_] does not listen (no [Setup]
    yet, a closed descriptor, the accepted one) ends the process with
    [EXIT_FAILURE] after one fatal record; it closes nothing.  With a
    listening socket and no peer that ever connects it does not come back. *)
Theorem Start_without_listener_or_peer (s : Server) (h : Host) :
  (fds (env h) !! server_fd_ s <> Some Listening ->
   Start s h
   = Halted EXIT_FAILURE
            (with_env h (FatalLog "Failed to accept client" (env h))))
  /\ (fds (env h) !! server_fd_ s = Some Listening -> pending h = O ->
      Start s h = Waiting h).
Proof.
  rewrite Start_cases. split.
  - intros Hs. destruct (fds (env h) !! server_fd_ s) as [[|]|];
      (reflexivity || congruence).
  - intros -> ->. reflexivity.
Qed.

Lemma Start_without_listener_or_peer_witness :
  (exists h', Start (Scenario.fresh 9000 false)
                    (Scenario.host LittleEndian 5 1) = Halted 1 h'
              /\ fds (env h') = ∅)
  /\ Start (mkServer 9000 true 3 (-1) 0)
           (mkHost (Example.world LittleEndian 5 []) ∅ ∅ ∅ ∅ 1024 0 [] [])
     = Waiting (mkHost (Example.world LittleEndian 5 []) ∅ ∅ ∅ ∅ 1024 0 [] []).
Proof.
  split.
  - eexists. split.
    + apply (proj1 (Start_without_listener_or_peer
                      (Scenario.fresh 9000 false)
                      (Scenario.host LittleEndian 5 1))).
      vm_compute. discriminate.
    + reflexivity.
  - apply (proj2 (Start_without_listener_or_peer
                    (mkServer 9000 true 3 (-1) 0)
                    (mkHost (Example.world LittleEndian 5 []) ∅ ∅ ∅ ∅
                            1024 0 [] []))); reflexivity.
Defined.

(** ** The lifecycle as a whole *)

Lemma Setup_Ready_inv (s : Server) (h : Host) (s' : Server) (h' : Host) :
  Setup s h = Ready s' h' ->
  s' = set_server_fd s (lowest_free h)
  /\ fds (env h') = <[lowest_free h := Listening]> (fds (env h))
  /\ fds (env h) !! lowest_free h = None.
Proof.
  rewrite Setup_cases. intros H.
  destruct (lowest_free_spec h) as (Hfree & _ & _).
  apply is_open_false in Hfree as (Hnone & _).
  destruct (lowest_free h <? nofile h); [|discriminate].
  destruct (bound_port h (htons (port_ s))); [|discriminate].
  injection H as <- <-. cbn [env].
  split; [reflexivity|]. split; [|exact Hnone].
  destruct (debug_ s); reflexivity.
Qed.

Lemma Start_Ready_inv (s : Server) (h : Host) (s' : Server) (h' : Host) :
  Start s h = Ready s' h' ->
  s' = set_client_fd s (lowest_free h)
  /\ fds (env h') = <[lowest_free h := Connected]> (fds (env h))
  /\ fds (env h) !! lowest_free h = None
  /\ fds (env h) !! server_fd_ s = Some Listening.
Proof.
  rewrite Start_cases. intros H.
  destruct (lowest_free_spec h) as (Hfree & _ & _).
  apply is_open_false in Hfree as (Hnone & _).
  destruct (fds (env h) !! server_fd_ s) as [[|]|] eqn:Hs; try discriminate.
  destruct (pending h); [discriminate|].
  destruct (lowest_free h <? nofile h); [|discriminate].
  injection H as <- <-. cbn [env].
  split; [reflexivity|]. split; [|split; [exact Hnone|reflexivity]].
  destruct (debug_ s); reflexivity.
Qed.

(** [Setup], [Start] and then [CloseSocket] leave no descriptor behind: the
    descriptor table is the one before [Setup]. *)
Theorem lifecycle_restores_descriptors (s s1 s2 : Server) (h h1 h2 : Host) :
  Setup s h = Ready s1 h1 ->
  Start s1 h1 = Ready s2 h2 ->
  fds (CloseSocket s2 (env h2)) = fds (env h).
Proof.
  intros Hsetup Hstart.
  apply Setup_Ready_inv in Hsetup as (-> & Hfds1 & Hnone).
  apply Start_Ready_inv in Hstart as (-> & Hfds2 & Hnone1 & _).
  destruct (CloseSocket_spec
              (set_client_fd (set_server_fd s (lowest_free h))
                 (lowest_free h1)) (env h2)) as [-> _].
  cbn [set_client_fd set_server_fd server_fd_ client_fd_].
  rewrite Hfds2, Hfds1. rewrite Hfds1 in Hnone1.
  assert (Hne : lowest_free h <> lowest_free h1).
  { intros Heq. rewrite <- Heq, lookup_insert_eq in Hnone1. discriminate. }
  rewrite lookup_insert_ne in Hnone1 by exact Hne.
  rewrite delete_insert_ne by exact Hne.
  rewrite (delete_insert_id (fds (env h)) (lowest_free h)) by exact Hnone.
  apply delete_insert_id. exact Hnone1.
Qed.

Lemma lifecycle_restores_descriptors_witness :
  exists s1 h1 s2 h2,
    Setup (Scenario.fresh 9000 true) (Scenario.host LittleEndian 5 1)
    = Ready s1 h1
    /\ Start s1 h1 = Ready s2 h2
    /\ fds (env h2) = <[4 := Connected]> (<[3 := Listening]> ∅)
    /\ fds (CloseSocket s2 (env h2)) = ∅.
Proof.
  assert (H : exists s1 h1 s2 h2,
    Setup (Scenario.fresh 9000 true) (Scenario.host LittleEndian 5 1)
    = Ready s1 h1
    /\ Start s1 h1 = Ready s2 h2
    /\ fds (env h2) = <[4 := Connected]> (<[3 := Listening]> ∅)).
  { eexists _, _, _, _. split; [vm_compute; reflexivity|].
    split; vm_compute; reflexivity. }
  destruct H as (s1 & h1 & s2 & h2 & H1 & H2 & Hfds).
  exists s1, h1, s2, h2. repeat (split; [assumption|]).
  exact (lifecycle_restores_descriptors _ _ _ _ _ _ H1 H2).
Defined.

(** A second [Start] overwrites [client_fd_]: the descriptor of the first
    peer is named by no member afterwards, and it is still open after
    [CloseSocket], that of the destructor included. *)
Theorem second_Start_leaks_first_peer (s s1 s2 : Server) (h h1 h2 : Host) :
  Start s h = Ready s1 h1 ->
  Start s1 h1 = Ready s2 h2 ->
  client_fd_ s2 <> client_fd_ s1
  /\ server_fd_ s2 <> client_fd_ s1
  /\ fds (destroy s2 (env h2)) !! client_fd_ s1 = Some Connected.
Proof.
  intros H1 H2.
  apply Start_Ready_inv in H1 as (-> & Hfds1 & Hnone & Hs).
  apply Start_Ready_inv in H2 as (-> & Hfds2 & Hnone1 & _).
  cbn [set_client_fd server_fd_ client_fd_] in *.
  assert (Hne : lowest_free h1 <> lowest_free h).
  { intros Heq. rewrite Hfds1, Heq, lookup_insert_eq in Hnone1.
    discriminate. }
  assert (Hne' : server_fd_ s <> lowest_free h) by congruence.
  split; [exact Hne|]. split; [exact Hne'|].
  unfold destroy.
  match goal with
  | |- context [CloseSocket ?s0 ?w0] =>
      destruct (CloseSocket_spec s0 w0) as [-> _]
  end.
  cbn [server_fd_ client_fd_].
  rewrite lookup_delete_ne by exact Hne.
  rewrite lookup_delete_ne by exact Hne'.
  rewrite Hfds2, lookup_insert_ne by exact Hne.
  rewrite Hfds1. apply lookup_insert_eq.
Qed.

Lemma second_Start_leaks_first_peer_witness :
  exists s1 h1 s2 h2,
    Start (mkServer 9000 false 3 (-1) 0)
          (mkHost (Example.world LittleEndian 5 []) ∅ ∅ {[ 0; 1; 2 ]} ∅
                  1024 2 [] [])
    = Ready s1 h1
    /\ Start s1 h1 = Ready s2 h2
    /\ client_fd_ s1 = 5 /\ client_fd_ s2 = 6
    /\ fds (destroy s2 (env h2)) !! 5 = Some Connected.
Proof.
  assert (H : exists s1 h1 s2 h2,
    Start (mkServer 9000 false 3 (-1) 0)
          (mkHost (Example.world LittleEndian 5 []) ∅ ∅ {[ 0; 1; 2 ]} ∅
                  1024 2 [] [])
    = Ready s1 h1
    /\ Start s1 h1 = Ready s2 h2
    /\ client_fd_ s1 = 5 /\ client_fd_ s2 = 6).
  { eexists _, _, _, _. split; [vm_compute; reflexivity|].
    split; [vm_compute; reflexivity|]. split; reflexivity. }
  destruct H as (s1 & h1 & s2 & h2 & H1 & H2 & Hc1 & Hc2).
  exists s1, h1, s2, h2. repeat (split; [assumption|]).
  rewrite <- Hc1.
  exact (proj2 (proj2 (second_Start_leaks_first_peer _ _ _ _ _ _ H1 H2))).
Defined.

(** ** Nothing marks where a message ends *)

(** The stream carries no boundaries and no types: the sixteen bytes of a
    tuple of four are the bytes of two tuples of two, and a peer that
    receives two tuples of two gets the first and the second half of the
    tuple of four. *)
Theorem tuple_of_four_reads_as_two_pairs (a b c d : Z)
  (old1 old2 : array2) (s : Server) (w : World) (rest : list byte) :
  is_array4 (a, b, c, d) ->
  live w (client_fd_ s) ->
  rx w = wire_of (byte_order w) (CallSendArray4 (a, b, c, d)) ++ rest ->
  exists w',
    collect [CallRecvArray2 old1; CallRecvArray2 old2] s w
    = Returned [Array2Result (a, b); Array2Result (c, d)] s w'
    /\ rx w' = rest.
Proof.
  intros Hty Hlive Hrx.
  destruct (collect_recvs
              [CallSendArray2 (a, b); CallSendArray2 (c, d)]
              [CallRecvArray2 old1; CallRecvArray2 old2]
              ltac:(repeat constructor) s w rest)
    as (w' & H & Hrx' & _).
  - unfold is_array4 in Hty. cbn [array4_elems] in Hty.
    inversion Hty as [|? ? Ha Hty1]; subst.
    inversion Hty1 as [|? ? Hb Hty2]; subst.
    inversion Hty2 as [|? ? Hc Hty3]; subst.
    inversion Hty3 as [|? ? Hd _]; subst.
    apply List.Forall_cons; [|apply List.Forall_cons; [|apply List.Forall_nil]].
    + unfold well_typed, is_array2. cbn [array2_elems].
      repeat (apply List.Forall_cons; [assumption|]). apply List.Forall_nil.
    + unfold well_typed, is_array2. cbn [array2_elems].
      repeat (apply List.Forall_cons; [assumption|]). apply List.Forall_nil.
  - exact Hlive.
  - rewrite Hrx. cbn [wire_of wire_of_all array4_elems array2_elems
                      data_bytes].
    rewrite !app_nil_r, <- !app_assoc. reflexivity.
  - exists w'. split; [exact H|exact Hrx'].
Qed.

Lemma tuple_of_four_reads_as_two_pairs_witness :
  exists w',
    collect [CallRecvArray2 (0, 0); CallRecvArray2 (0, 0)]
            (Example.server false)
            (Example.world LittleEndian 16
               [x01; x00; x00; x00; x02; x00; x00; x00;
                x03; x00; x00; x00; x04; x00; x00; x00]%byte)
    = Returned [Array2Result (1, 2); Array2Result (3, 4)]
               (Example.server false) w'
    /\ rx w' = [].
Proof.
  apply (tuple_of_four_reads_as_two_pairs 1 2 3 4 (0, 0) (0, 0)
           (Example.server false)
           (Example.world LittleEndian 16
              [x01; x00; x00; x00; x02; x00; x00; x00;
               x03; x00; x00; x00; x04; x00; x00; x00]%byte) []).
  - repeat constructor; unfold is_u32; simpl; lia.
  - split; [reflexivity|]. intros n. simpl. lia.
  - reflexivity.
Defined.
